(** * NotiFlow: a shallow embedding of the extension's event logic

    The browser extension keeps four categories of calendar data (class
    meetings, assignments, final exams, midterms) in [chrome.storage.sync]
    and refreshes each of them from its own page component.  This file
    embeds the logic-bearing functions of those components and states the
    properties the specification gives for them. *)

From Stdlib Require Import ZArith Lia List Ascii String.
From stdpp Require Import base strings list gmap pretty sorting.

(** ** JavaScript primitives used by the components *)

Module Js.

(** Numbers as the components use them: small integers, [NaN], and
    [null] where a function returns it in place of a number. *)
Inductive num : Type :=
| Null
| NaN
| Num (z : Z).

(** [ToNumber]: [null] converts to 0, [NaN] has no value. *)
Definition to_number (v : num) : option Z :=
  match v with
  | Null => Some 0%Z
  | NaN => None
  | Num z => Some z
  end.

Definition add (a b : num) : num :=
  match to_number a, to_number b with
  | Some x, Some y => Num (x + y)
  | _, _ => NaN
  end.

Definition mul (a b : num) : num :=
  match to_number a, to_number b with
  | Some x, Some y => Num (x * y)
  | _, _ => NaN
  end.

(** [a >= b]: false as soon as one side is [NaN]. *)
Definition ge (a b : num) : bool :=
  match to_number a, to_number b with
  | Some x, Some y => (y <=? x)%Z
  | _, _ => false
  end.

(** [a === k] for a number literal [k]. *)
Definition strict_eq (a : num) (k : Z) : bool :=
  match a with
  | Num z => (z =? k)%Z
  | _ => false
  end.

(** [s.split(sep)] for a one-character separator. *)
Fixpoint split (sep : ascii) (s : string) : list string :=
  match s with
  | EmptyString => [EmptyString]
  | String c s' =>
      if Ascii.eqb c sep then EmptyString :: split sep s'
      else match split sep s' with
           | [] => [String c EmptyString]
           | w :: ws => String c w :: ws
           end
  end.

Definition digit_of (c : ascii) : option Z :=
  let n := Z.of_nat (nat_of_ascii c) in
  if ((48 <=? n) && (n <=? 57))%Z then Some (n - 48)%Z else None.

Fixpoint digits_value (acc : Z) (s : string) : option Z :=
  match s with
  | EmptyString => Some acc
  | String c s' =>
      match digit_of c with
      | Some d => digits_value (10 * acc + d) s'
      | None => None
      end
  end.

(** [Number(s)] on the strings a time label is made of: the empty
    string is 0, a run of decimal digits is its value, and anything
    else is [NaN].  (Signs, fractions, exponents and padding, which
    [Number] also reads, do not occur in a time label.) *)
Definition Number (s : string) : num :=
  match digits_value 0 s with
  | Some z => Num z
  | None => NaN
  end.

(** White space removed by [trim], for code units below 256. *)
Definition is_space (c : ascii) : bool :=
  let n := nat_of_ascii c in
  ((9 <=? n) && (n <=? 13) || (n =? 32) || (n =? 160))%nat.

Fixpoint trim_start (s : string) : string :=
  match s with
  | EmptyString => EmptyString
  | String c s' => if is_space c then trim_start s' else s
  end.

Fixpoint trim_end (s : string) : string :=
  match s with
  | EmptyString => EmptyString
  | String c s' =>
      match trim_end s' with
      | EmptyString => if is_space c then EmptyString else String c EmptyString
      | r => String c r
      end
  end.

Definition trim (s : string) : string := trim_end (trim_start s).

(** Truthiness of a string: the empty string is the only falsy one. *)
Definition truthy (s : string) : bool := negb (String.eqb s "").

(** [a[i] = v] on an array whose slots may be empty ([None], which
    reads as [undefined]): in range the slot is overwritten, out of
    range the array is extended with empty slots up to [i]. *)
Definition array_assign {A} (a : list (option A)) (i : nat) (v : A)
  : list (option A) :=
  if decide (i < length a) then <[i := Some v]> a
  else a ++ replicate (i - length a) None ++ [Some v].

(** [a.filter((_, i) => i !== index)]. *)
Fixpoint filter_index_ne {A} (index : nat) (pos : nat) (a : list A) : list A :=
  match a with
  | [] => []
  | x :: a' =>
      if Nat.eqb pos index then filter_index_ne index (S pos) a'
      else x :: filter_index_ne index (S pos) a'
  end.

End Js.

(** ** The class-entry form

    Component [Classtime] (Pages/elements/Classtime.jsx): the time
    labels, the validity test and the submit handler. *)

Module Classtime.

Record Days : Type := mkDays
  { M : bool; Tu : bool; W : bool; Th : bool; F : bool }.

Inductive day : Type := dM | dTu | dW | dTh | dF.

(** The object handed to [onSave]; the four [useState] cells of the
    form hold exactly its members. *)
Record ClassObj : Type := mkClass
  { className : string;
    days : Days;
    startTime : string;
    endTime : string }.

Definition no_days : Days := mkDays false false false false false.

Definition blank : ClassObj := mkClass "" no_days "" "".

(** State after mounting: the effect on [initialData] copies a truthy
    [initialData] into the cells. *)
Definition mount (initialData : option ClassObj) : ClassObj :=
  match initialData with
  | Some d => d
  | None => blank
  end.

(** The [while] loop of [generateTimes], from the state [hour],
    [minute], [times]; [fuel] bounds the number of loop tests, and
    [None] means the bound was reached. *)
Fixpoint generateTimes_loop (fuel : nat) (hour minute : Z) (times : list string)
  : option (list string) :=
  match fuel with
  | O => None
  | S fuel' =>
      if ((hour <? 21) || ((hour =? 21) && (minute =? 0)))%Z then
        let suffix := if (12 <=? hour)%Z then "PM" else "AM" in
        let displayHour := if (12 <? hour)%Z then (hour - 12)%Z else hour in
        let displayMinute := if (minute =? 0)%Z then "00" else pretty minute in
        let times' :=
          times ++ [pretty displayHour +:+ ":" +:+ displayMinute +:+ " " +:+ suffix] in
        let minute' := (minute + 30)%Z in
        if (minute' =? 60)%Z
        then generateTimes_loop fuel' (hour + 1)%Z 0%Z times'
        else generateTimes_loop fuel' hour minute' times'
      else Some times
  end.

Definition generateTimes_fuel : nat := 64.

Definition generateTimes : option (list string) :=
  generateTimes_loop generateTimes_fuel 8 0 [].

Definition allTimes : list string := default [] generateTimes.

(** [timeToMinutes]: [null] for a falsy label, otherwise
    [h * 60 + m] after the AM/PM adjustment of [h]. *)
Definition timeToMinutes (t : string) : Js.num :=
  if Js.truthy t then
    let parts := Js.split " " t in
    let time := default "" (parts !! 0%nat) in
    let suffix := parts !! 1%nat in
    let hm := map Js.Number (Js.split ":" time) in
    let h := default Js.NaN (hm !! 0%nat) in
    let m := default Js.NaN (hm !! 1%nat) in
    let h1 :=
      if bool_decide (suffix = Some "PM") && negb (Js.strict_eq h 12)
      then Js.add h (Js.Num 12) else h in
    let h2 :=
      if bool_decide (suffix = Some "AM") && Js.strict_eq h1 12
      then Js.Num 0 else h1 in
    Js.add (Js.mul h2 (Js.Num 60)) m
  else Js.Null.

(** The end-time options: the labels at least 30 minutes after the
    chosen start, or all labels while no start is chosen. *)
Definition validEndTimes (startTime : string) : list string :=
  if Js.truthy startTime then
    List.filter
      (fun t => Js.ge (timeToMinutes t) (Js.add (timeToMinutes startTime) (Js.Num 30)))
      allTimes
  else allTimes.

(** [Object.values(days).some(d => d)]. *)
Definition some_day (d : Days) : bool :=
  existsb (fun b => b) [M d; Tu d; W d; Th d; F d].

(** [isValid]: a non-blank name, a ticked day, a start and an end. *)
Definition isValid (st : ClassObj) : bool :=
  negb (String.eqb (Js.trim (className st)) "")
  && some_day (days st)
  && negb (String.eqb (startTime st) "")
  && negb (String.eqb (endTime st) "").

(** [handleSubmit]: the object passed to [onSave] (if it is invoked)
    and the state of the form afterwards. *)
Definition handleSubmit (st : ClassObj) : option ClassObj * ClassObj :=
  if isValid st then (Some st, blank) else (None, st).

Definition toggle (d : day) (ds : Days) : Days :=
  match d with
  | dM => mkDays (negb (M ds)) (Tu ds) (W ds) (Th ds) (F ds)
  | dTu => mkDays (M ds) (negb (Tu ds)) (W ds) (Th ds) (F ds)
  | dW => mkDays (M ds) (Tu ds) (negb (W ds)) (Th ds) (F ds)
  | dTh => mkDays (M ds) (Tu ds) (W ds) (negb (Th ds)) (F ds)
  | dF => mkDays (M ds) (Tu ds) (W ds) (Th ds) (negb (F ds))
  end.

(** What the user can do to the form short of submitting it. *)
Inductive edit : Type :=
| TypeName (s : string)
| ToggleDay (d : day)
| SelectStart (v : string)
| SelectEnd (v : string).

Definition is_option (v : string) (opts : list string) : bool :=
  existsb (String.eqb v) ("" :: opts).

(** The [onChange] handlers.  A [select] only reports one of its
    [option] values, and a disabled [select] reports nothing; such
    an event leaves the state as it is. *)
Definition apply_edit (e : edit) (st : ClassObj) : ClassObj :=
  match e with
  | TypeName s => mkClass s (days st) (startTime st) (endTime st)
  | ToggleDay d => mkClass (className st) (toggle d (days st)) (startTime st) (endTime st)
  | SelectStart v =>
      if is_option v allTimes
      then mkClass (className st) (days st) v ""
      else st
  | SelectEnd v =>
      if Js.truthy (startTime st) && is_option v (validEndTimes (startTime st))
      then mkClass (className st) (days st) (startTime st) v
      else st
  end.

End Classtime.

(** ** The persisted store and the page components

    [chrome.storage.sync] as a finite map from keys to stored values,
    and the handlers of the four pages (Pages/MidtermPage.jsx,
    FinalExamPage.jsx, AssignmentPage.jsx, ClasstimePage.jsx) that write
    it. *)

(** An exam event in the exchange format of the backend
    ([json_object_format.md]); [location] is optional. *)
Record Event : Type := mkEvent
  { course : string;
    event_type : string;
    date : string;
    begin_date_time : string;
    end_date_time : string;
    location : option string }.

(** One [[name, date, time]] row of the assignments page. *)
Record AssignmentItem : Type := mkItem
  { item_name : string; item_date : string; item_time : string }.

(** The values kept under the keys of [chrome.storage.sync]. *)
Inductive stored : Type :=
| Classes (l : list (option Classtime.ClassObj))
| Events (l : list Event)
| Assignments (a : list (string * list (list AssignmentItem)))
| Courses (l : list string)
| Token (s : string)
| Flag (b : bool).

(** [chrome.storage.sync.set(data)]: every key of [data] is written,
    every other key keeps its value. *)
Definition storageSet (data st : gmap string stored) : gmap string stored :=
  data ∪ st.

Module MidtermPage.

Record state : Type := mkState { midterms : list Event; isLoading : bool }.

(** The mount effect: a truthy stored value replaces the empty list. *)
Definition load (st : gmap string stored) : state :=
  match st !! "midterms" with
  | Some (Events l) => mkState l false
  | _ => mkState [] false
  end.

(** [reparse]; [response] is the body of GET /api/announcements, or
    [None] when the request throws and the [catch] branch runs. *)
Definition reparse (response : option (list Event))
    (s : state) (st : gmap string stored) : state * gmap string stored :=
  match response with
  | Some fetchedMidterms =>
      (mkState fetchedMidterms false,
       storageSet {[ "midterms" := Events fetchedMidterms ]} st)
  | None => (mkState (midterms s) false, st)
  end.

End MidtermPage.

Module FinalExamPage.

Record state : Type := mkState { finals : list Event; isLoading : bool }.

Definition load (st : gmap string stored) : state :=
  match st !! "finals" with
  | Some (Events l) => mkState l false
  | _ => mkState [] false
  end.

(** [reparse]; [response] is the body of GET /api/finalexam. *)
Definition reparse (response : option (list Event))
    (s : state) (st : gmap string stored) : state * gmap string stored :=
  match response with
  | Some fetchedFinals =>
      (mkState fetchedFinals false,
       storageSet {[ "finals" := Events fetchedFinals ]} st)
  | None => (mkState (finals s) false, st)
  end.

End FinalExamPage.

Module AssignmentPage.

Record state : Type := mkState
  { assignments : list (string * list (list AssignmentItem));
    isLoading : bool }.

Definition load (st : gmap string stored) : state :=
  match st !! "assignments" with
  | Some (Assignments a) => mkState a false
  | _ => mkState [] false
  end.

(** [reparse]; [response] is the body of GET /api/assignments. *)
Definition reparse (response : option (list (string * list (list AssignmentItem))))
    (s : state) (st : gmap string stored) : state * gmap string stored :=
  match response with
  | Some fetchedAssignments =>
      (mkState fetchedAssignments false,
       storageSet {[ "assignments" := Assignments fetchedAssignments ]} st)
  | None => (mkState (assignments s) false, st)
  end.

End AssignmentPage.

Module ClasstimePage.

Record state : Type := mkState
  { classes : list (option Classtime.ClassObj);
    showInput : bool;
    editingIndex : option nat }.

Definition initial : state := mkState [] true None.

(** The effect that shows the form exactly when the list is empty;
    it runs whenever [classes] has been set. *)
Definition sync_showInput (s : state) : state :=
  mkState (classes s) (bool_decide (length (classes s) = 0)) (editingIndex s).

(** The mount effect reading [classData]. *)
Definition load (st : gmap string stored) : state :=
  match st !! "classData" with
  | Some (Classes l) => sync_showInput (mkState l true None)
  | _ => initial
  end.

(** [handleSave]: overwrite the entry at [editingIndex] in a copy of
    the list, or append; put the new list in state and storage. *)
Definition handleSave (classObj : Classtime.ClassObj)
    (s : state) (st : gmap string stored) : state * gmap string stored :=
  match editingIndex s with
  | Some i =>
      let updated := Js.array_assign (classes s) i classObj in
      (mkState updated false None,
       storageSet {[ "classData" := Classes updated ]} st)
  | None =>
      let updated := classes s ++ [Some classObj] in
      (mkState updated false (editingIndex s),
       storageSet {[ "classData" := Classes updated ]} st)
  end.

(** [handleDelete]: filter out the entry at [index]; put the new list
    in state and storage. *)
Definition handleDelete (index : nat)
    (s : state) (st : gmap string stored) : state * gmap string stored :=
  let updated := Js.filter_index_ne index 0 (classes s) in
  (mkState updated (showInput s) (editingIndex s),
   storageSet {[ "classData" := Classes updated ]} st).

Definition handleEdit (index : nat) (s : state) : state :=
  mkState (classes s) true (Some index).

(** The [initialData] prop handed to the form. *)
Definition initialData (s : state) : option Classtime.ClassObj :=
  match editingIndex s with
  | Some i => mjoin (classes s !! i)
  | None => None
  end.

End ClasstimePage.

(** ** The popup as a transition system

    The class page, the form it shows while [showInput] holds, and the
    store.  Each user gesture runs its handler and the effects that
    follow from the state it sets. *)

Module Popup.

Record app : Type := mkApp
  { page : ClasstimePage.state;
    form : Classtime.ClassObj;
    store : gmap string stored }.

Inductive gesture : Type :=
| Edit (e : Classtime.edit)
| ClickSubmit
| ClickEdit (index : nat)
| ClickDelete (index : nat)
| ClickAddAnother.

Definition start (st : gmap string stored) : app :=
  mkApp (ClasstimePage.load st) Classtime.blank st.

(** The form is mounted afresh whenever it becomes visible. *)
Definition show (was_visible : bool) (p : ClasstimePage.state)
    (f : Classtime.ClassObj) : Classtime.ClassObj :=
  if ClasstimePage.showInput p && negb was_visible
  then Classtime.mount (ClasstimePage.initialData p)
  else f.

Definition step (g : gesture) (a : app) : app :=
  let visible := ClasstimePage.showInput (page a) in
  match g with
  | Edit e =>
      if visible then mkApp (page a) (Classtime.apply_edit e (form a)) (store a)
      else a
  | ClickSubmit =>
      if visible then
        match Classtime.handleSubmit (form a) with
        | (Some classObj, f') =>
            let '(p', st') := ClasstimePage.handleSave classObj (page a) (store a) in
            let p'' := ClasstimePage.sync_showInput p' in
            mkApp p'' (show visible p'' f') st'
        | (None, f') => mkApp (page a) f' (store a)
        end
      else a
  | ClickEdit index =>
      if negb visible && bool_decide (index < length (ClasstimePage.classes (page a)))
      then
        let p' := ClasstimePage.handleEdit index (page a) in
        mkApp p' (show visible p' (form a)) (store a)
      else a
  | ClickDelete index =>
      if negb visible && bool_decide (index < length (ClasstimePage.classes (page a)))
      then
        let '(p', st') := ClasstimePage.handleDelete index (page a) (store a) in
        let p'' := ClasstimePage.sync_showInput p' in
        mkApp p'' (show visible p'' (form a)) st'
      else a
  | ClickAddAnother =>
      if negb visible then
        let p' := ClasstimePage.mkState (ClasstimePage.classes (page a)) true
                    (ClasstimePage.editingIndex (page a)) in
        mkApp p' (show visible p' (form a)) (store a)
      else a
  end.

Definition run (gs : list gesture) (a : app) : app :=
  fold_left (fun acc g => step g acc) gs a.

End Popup.

(** ** The backend services behind the pages

    The server that answers the pages' requests (course-name parser,
    announcement scan, recurrence expansion) is not part
    of the front end; it is described here from the specification and
    from the project's list of known issues. *)

Module Backend.

Definition is_upper (c : ascii) : bool :=
  let n := nat_of_ascii c in ((65 <=? n) && (n <=? 90))%nat.

Definition is_digit (c : ascii) : bool :=
  let n := nat_of_ascii c in ((48 <=? n) && (n <=? 57))%nat.

Fixpoint all_chars (p : ascii -> bool) (s : string) : bool :=
  match s with
  | EmptyString => true
  | String c s' => p c && all_chars p s'
  end.

(** Modelled from the spec: a validated course (section 3), subject
    letters and a three-digit code with its optional section letter. *)
Record CourseIdentifier : Type := mkCourse
  { subject : string; code : string }.

(** The longest prefix of upper-case letters, and what follows it. *)
Fixpoint span_upper (s : string) : string * string :=
  match s with
  | EmptyString => (EmptyString, EmptyString)
  | String c s' =>
      if is_upper c
      then let '(l, r) := span_upper s' in (String c l, r)
      else (EmptyString, s)
  end.

(** Three digits, then at most one letter, then the end of the input. *)
Definition parse_code (s : string) : option string :=
  match s with
  | String a (String b (String c rest)) =>
      if is_digit a && is_digit b && is_digit c then
        match rest with
        | EmptyString => Some s
        | String l EmptyString => if is_upper l then Some s else None
        | _ => None
        end
      else None
  | _ => None
  end.

(** Modelled from the spec: the course identifier parser (section 4.1),
    whose code is on the server.  It accepts
    [<letters><separator?><3 digits><optional letter>] and nothing else;
    letters are the upper-case letters of the data model, and the
    separator characters, which the specification does not list, are
    the parameter [is_separator].  [None] is [Rejected]. *)
Definition parse (is_separator : ascii -> bool) (raw : string)
  : option CourseIdentifier :=
  let '(subj, rest) := span_upper raw in
  if String.eqb subj "" then None
  else
    match parse_code rest with
    | Some c => Some (mkCourse subj c)
    | None =>
        match rest with
        | String sep rest' =>
            if is_separator sep
            then option_map (mkCourse subj) (parse_code rest')
            else None
        | EmptyString => None
        end
    end.

(** The grammar the parser is specified by. *)
Definition course_form (is_separator : ascii -> bool) (raw : string) : Prop :=
  exists letters sep digits tail : string,
    raw = letters +:+ sep +:+ digits +:+ tail
    /\ letters <> "" /\ all_chars is_upper letters = true
    /\ (sep = "" \/ exists c, sep = String c "" /\ is_separator c = true)
    /\ String.length digits = 3 /\ all_chars is_digit digits = true
    /\ (tail = "" \/ exists c, tail = String c "" /\ is_upper c = true).

(** The [course] member of an event: ["<SUBJECT> <NNN>"]. *)
Definition canonical (id : CourseIdentifier) : string :=
  subject id +:+ " " +:+ code id.

(** Modelled from the spec: one (date, start, end) span extracted from
    an announcement, and the announcement candidate (section 3). *)
Record Span : Type := mkSpan
  { span_date : string; span_begin : string; span_end : string }.

Record AnnouncementCandidate : Type := mkCandidate
  { cand_course : string;
    cand_text : string;
    cand_published : Z;
    cand_spans : list Span }.

Inductive rejection : Type :=
| UnparseableCourse
| NoConcreteSpan
| AlreadyDetected.

Definition midterm_event (id : CourseIdentifier) (sp : Span) : Event :=
  mkEvent (canonical id) "midterm" (span_date sp) (span_begin sp) (span_end sp) None.

(** Modelled from the spec: the announcement scan of one fetch cycle
    (section 4.4, steps 1 to 3; known issue "Incomplete Midterm
    Updates"), whose code is on the server.  Candidates are read in the
    order supplied; once a midterm is detected for a course, later
    announcements of that course are ignored.  [detected] lists the
    courses that already have their midterm; the result is the
    accepted events and the rejection report. *)
Fixpoint scan (is_separator : ascii -> bool) (detected : list string)
    (cs : list AnnouncementCandidate)
  : list Event * list (AnnouncementCandidate * rejection) :=
  match cs with
  | [] => ([], [])
  | c :: cs' =>
      match parse is_separator (cand_course c) with
      | None =>
          let '(evs, rej) := scan is_separator detected cs' in
          (evs, (c, UnparseableCourse) :: rej)
      | Some id =>
          if bool_decide (canonical id ∈ detected) then
            let '(evs, rej) := scan is_separator detected cs' in
            (evs, (c, AlreadyDetected) :: rej)
          else
            match cand_spans c with
            | [] =>
                let '(evs, rej) := scan is_separator detected cs' in
                (evs, (c, NoConcreteSpan) :: rej)
            | sp :: _ =>
                let '(evs, rej) := scan is_separator (canonical id :: detected) cs' in
                (midterm_event id sp :: evs, rej)
            end
      end
  end.

(** Modelled from the spec: the body GET /api/announcements answers
    with, the midterms accepted from the cycle's candidates. *)
Definition announcements (is_separator : ascii -> bool)
    (cs : list AnnouncementCandidate) : list Event :=
  fst (scan is_separator [] cs).

Definition rejection_report (is_separator : ascii -> bool)
    (cs : list AnnouncementCandidate)
  : list (AnnouncementCandidate * rejection) :=
  snd (scan is_separator [] cs).

(** Whether a candidate belongs to the course with canonical name [key]. *)
Definition in_group (is_separator : ascii -> bool) (key : string)
    (c : AnnouncementCandidate) : bool :=
  bool_decide (canonical <$> parse is_separator (cand_course c) = Some key).

(** The candidates of one course, in the order supplied. *)
Definition course_group (is_separator : ascii -> bool) (key : string)
    (cs : list AnnouncementCandidate) : list AnnouncementCandidate :=
  List.filter (in_group is_separator key) cs.

Definition is_already_detected (r : rejection) : bool :=
  match r with AlreadyDetected => true | _ => false end.

(** The candidates of a course that a report lists as ignored because
    the course already had its midterm. *)
Definition superseded (is_separator : ascii -> bool) (key : string)
    (report : list (AnnouncementCandidate * rejection))
  : list AnnouncementCandidate :=
  map fst
    (List.filter (fun cr => in_group is_separator key (fst cr) && is_already_detected (snd cr))
       report).

(** The courses with a detected midterm once [cs] has been scanned. *)
Fixpoint detected_after (is_separator : ascii -> bool) (detected : list string)
    (cs : list AnnouncementCandidate) : list string :=
  match cs with
  | [] => detected
  | c :: cs' =>
      match parse is_separator (cand_course c) with
      | None => detected_after is_separator detected cs'
      | Some id =>
          if bool_decide (canonical id ∈ detected)
          then detected_after is_separator detected cs'
          else
            match cand_spans c with
            | [] => detected_after is_separator detected cs'
            | _ :: _ => detected_after is_separator (canonical id :: detected) cs'
            end
      end
  end.

Definition has_span (c : AnnouncementCandidate) : bool :=
  match cand_spans c with [] => false | _ :: _ => true end.

End Backend.

(** One midterm refresh cycle: the server scans the cycle's candidates
    and [MidtermPage.reparse] stores its answer. *)
Definition midterm_cycle (is_separator : ascii -> bool)
    (cs : list Backend.AnnouncementCandidate)
    (s : MidtermPage.state) (st : gmap string stored)
  : MidtermPage.state * gmap string stored :=
  MidtermPage.reparse (Some (Backend.announcements is_separator cs)) s st.

(** The midterm events a store holds. *)
Definition stored_midterms (st : gmap string stored) : list Event :=
  match st !! "midterms" with
  | Some (Events l) => l
  | _ => []
  end.

Definition events_of_course (key : string) (evs : list Event) : list Event :=
  List.filter (fun ev => String.eqb (course ev) key) evs.


(** ** Category refreshes

    The four categories and the storage key each one lives under.  A
    refresh is one run of the handler that writes the category: the
    three [reparse] functions, and for class meetings (which the user
    authors) [handleSave] and [handleDelete]. *)

Inductive category : Type :=
| class_meetings
| assignments
| final_exams
| midterms.

Definition category_key (c : category) : string :=
  match c with
  | class_meetings => "classData"
  | assignments => "assignments"
  | final_exams => "finals"
  | midterms => "midterms"
  end.

Inductive refresh_call : Type :=
| SaveClass (classObj : Classtime.ClassObj) (s : ClasstimePage.state)
| DeleteClass (index : nat) (s : ClasstimePage.state)
| ReparseAssignments (response : option (list (string * list (list AssignmentItem))))
    (s : AssignmentPage.state)
| ReparseFinals (response : option (list Event)) (s : FinalExamPage.state)
| ReparseMidterms (response : option (list Event)) (s : MidtermPage.state).

Definition call_category (r : refresh_call) : category :=
  match r with
  | SaveClass _ _ | DeleteClass _ _ => class_meetings
  | ReparseAssignments _ _ => assignments
  | ReparseFinals _ _ => final_exams
  | ReparseMidterms _ _ => midterms
  end.

(** The store after the call. *)
Definition refresh (r : refresh_call) (st : gmap string stored) : gmap string stored :=
  match r with
  | SaveClass classObj s => snd (ClasstimePage.handleSave classObj s st)
  | DeleteClass index s => snd (ClasstimePage.handleDelete index s st)
  | ReparseAssignments response s => snd (AssignmentPage.reparse response s st)
  | ReparseFinals response s => snd (FinalExamPage.reparse response s st)
  | ReparseMidterms response s => snd (MidtermPage.reparse response s st)
  end.

(** The sample midterm record of [MidtermPage.jsx]. *)
Definition info : list Event :=
  [ mkEvent "MATH 253" "Midterm" "2025/10/15" "12:00:00" "1:00:00" None ].

(** ** Time-order predicates *)

(** A class meeting whose end label denotes a time at least 30 minutes
    after its start label. *)
Definition meeting_times_ok (c : Classtime.ClassObj) : Prop :=
  exists s e : Z,
    Classtime.timeToMinutes (Classtime.startTime c) = Js.Num s
    /\ Classtime.timeToMinutes (Classtime.endTime c) = Js.Num e
    /\ (s + 30 <= e)%Z.

Definition slot_ok (slot : option Classtime.ClassObj) : Prop :=
  match slot with
  | Some c => meeting_times_ok c
  | None => True
  end.

(** The form has no end time chosen, or a well-ordered pair. *)
Definition form_ok (f : Classtime.ClassObj) : Prop :=
  Classtime.endTime f = "" \/ meeting_times_ok f.

Definition stored_classes_ok (st : gmap string stored) : Prop :=
  forall l, st !! "classData" = Some (Classes l) -> Forall slot_ok l.

(** Seconds since midnight of an ["HH:MM:SS"] time of the exchange
    format. *)
Definition clock_seconds (t : string) : option Z :=
  match map Js.Number (Js.split ":" t) with
  | [Js.Num h; Js.Num m; Js.Num s] => Some (h * 3600 + m * 60 + s)%Z
  | _ => None
  end.

(** Start time no later than end time, when both are present. *)
Definition event_times_ordered (ev : Event) : Prop :=
  forall b e, clock_seconds (begin_date_time ev) = Some b ->
              clock_seconds (end_date_time ev) = Some e -> (b <= e)%Z.

Definition stored_events_ordered (st : gmap string stored) : Prop :=
  forall k evs, st !! k = Some (Events evs) -> Forall event_times_ordered evs.

(** What every reachable popup state satisfies. *)
Definition popup_ok (a : Popup.app) : Prop :=
  Forall slot_ok (ClasstimePage.classes (Popup.page a))
  /\ form_ok (Popup.form a)
  /\ stored_classes_ok (Popup.store a).

(** ** The recurrence model *)

Module Recurrence.

Inductive weekday : Type := MO | TU | WE | TH | FR | SA | SU.

#[global] Instance weekday_eq_dec : EqDecision weekday.
Proof. solve_decision. Defined.

Definition all_weekdays : list weekday := [MO; TU; WE; TH; FR; SA; SU].

(** Dates are day numbers; day 0 is a Monday. *)
Definition weekday_of (d : Z) : weekday :=
  match (d mod 7)%Z with
  | 0%Z => MO
  | 1%Z => TU
  | 2%Z => WE
  | 3%Z => TH
  | 4%Z => FR
  | 5%Z => SA
  | _ => SU
  end.

(** Modelled from the spec: the recurrence rule of a class meeting
    (section 3; [frequency] is always WEEKLY): the anchor date, the
    interval in weeks, the weekday set and the exception dates. *)
Record RecurrenceRule : Type := mkRule
  { anchor : Z;
    interval : Z;
    by_day : list weekday;
    exception_dates : list Z }.

(** [InvalidRecurrence]: an empty or repeating weekday set, or an
    interval below 1. *)
Definition valid_rule (r : RecurrenceRule) : Prop :=
  (1 <= interval r)%Z /\ by_day r <> [] /\ NoDup (by_day r).

#[global] Instance valid_rule_dec r : Decision (valid_rule r).
Proof. unfold valid_rule. apply _. Defined.

(** The seven days of the step that starts on [base]. *)
Definition week_from (base : Z) : list Z :=
  map (fun j => (base + Z.of_nat j)%Z) (seq 0 7).

(** A day of a step is emitted when its weekday is in the set, it is no
    exception date, and it lies in the window, from [date_from] up to
    [date_to], where the expansion stops. *)
Definition occurs (r : RecurrenceRule) (date_from date_to : Z) (d : Z) : Prop :=
  weekday_of d ∈ by_day r /\ (d ∉ exception_dates r)
  /\ (date_from <= d)%Z /\ (d < date_to)%Z.

#[global] Instance occurs_dec r date_from date_to d :
  Decision (occurs r date_from date_to d).
Proof. unfold occurs. apply _. Defined.

Fixpoint expand_steps (n : nat) (base : Z) (r : RecurrenceRule)
    (date_from date_to : Z) : list Z :=
  match n with
  | O => []
  | S n' =>
      filter (occurs r date_from date_to) (week_from base)
      ++ expand_steps n' (base + 7 * interval r)%Z r date_from date_to
  end.

(** The steps that start before [date_to]. *)
Definition steps_until (r : RecurrenceRule) (date_to : Z) : nat :=
  if (date_to <=? anchor r)%Z then O
  else S (Z.to_nat ((date_to - 1 - anchor r) / (7 * interval r))).

(** Modelled from the spec: [expand] (section 4.2), whose code is on the
    server: starting from the rule's anchor date, step forward by
    [interval] weeks, emit one date per weekday of the set per step, skip
    the exception dates, stop at [date_to].  The expansion stops when it
    reaches [date_to], so the dates emitted are those before it: this is
    the reading under which a window of ten intervals holds the
    10 x |W| dates that section 8 counts (with [date_to] itself emitted
    the window would hold one date more whenever the anchor falls on a
    weekday of the set).  [None] is [InvalidRecurrence]. *)
Definition expand (r : RecurrenceRule) (date_from date_to : Z) : option (list Z) :=
  if decide (valid_rule r)
  then Some (expand_steps (steps_until r date_to) (anchor r) r date_from date_to)
  else None.

(** The rule without its exception dates. *)
Definition without_exceptions (r : RecurrenceRule) : RecurrenceRule :=
  mkRule (anchor r) (interval r) (by_day r) [].

End Recurrence.

(** The edit index, when set, points into the list while the form is
    shown, and the list has no empty slot. *)
Definition popup_index_ok (a : Popup.app) : Prop :=
  Forall is_Some (ClasstimePage.classes (Popup.page a))
  /\ match ClasstimePage.editingIndex (Popup.page a) with
     | Some i =>
         (i < length (ClasstimePage.classes (Popup.page a)))%nat
         /\ ClasstimePage.showInput (Popup.page a) = true
     | None => True
     end.

(** ** Further components of the front end *)

Module JsArray.

(** [a.join(sep)]. *)
Fixpoint join (sep : string) (a : list string) : string :=
  match a with
  | [] => ""
  | [x] => x
  | x :: a' => x +:+ sep +:+ join sep a'
  end.

End JsArray.

(** The label pushed by one turn of the loop of [generateTimes]
    (Pages/elements/Classtime.jsx): the template literal
    [displayHour:displayMinute suffix]. *)
Definition timeLabel (hour minute : Z) : string :=
  let suffix := if (12 <=? hour)%Z then "PM" else "AM" in
  let displayHour := if (12 <? hour)%Z then (hour - 12)%Z else hour in
  let displayMinute := if (minute =? 0)%Z then "00" else pretty minute in
  pretty displayHour +:+ ":" +:+ displayMinute +:+ " " +:+ suffix.

(** A class whose start and end are labels of the form's list, the
    end label after the start label. *)
Definition on_grid (c : Classtime.ClassObj) : Prop :=
  exists i j : nat,
    Classtime.allTimes !! i = Some (Classtime.startTime c)
    /\ Classtime.allTimes !! j = Some (Classtime.endTime c)
    /\ (i < j)%nat.

Definition slot_on_grid (slot : option Classtime.ClassObj) : Prop :=
  match slot with
  | Some c => on_grid c
  | None => True
  end.

(** The form while it is being filled: the start is unset or a label,
    and the end is unset or a later label. *)
Definition form_on_grid (f : Classtime.ClassObj) : Prop :=
  (Classtime.startTime f = "" \/ Classtime.startTime f ∈ Classtime.allTimes)
  /\ (Classtime.endTime f = "" \/ on_grid f).

Definition stored_classes_on_grid (st : gmap string stored) : Prop :=
  forall l, st !! "classData" = Some (Classes l) -> Forall slot_on_grid l.

(** ** The class card

    Component [ClasstimeCard], in the listing of
    Pages/elements/FinalExam.jsx. *)

Module ClasstimeCard.

Definition dayNames (d : Classtime.day) : string :=
  match d with
  | Classtime.dM => "Monday"
  | Classtime.dTu => "Tuesday"
  | Classtime.dW => "Wednesday"
  | Classtime.dTh => "Thursday"
  | Classtime.dF => "Friday"
  end.

(** [Object.entries(days)]: the keys in the order the form creates
    them. *)
Definition entries (ds : Classtime.Days) : list (Classtime.day * bool) :=
  [ (Classtime.dM, Classtime.M ds); (Classtime.dTu, Classtime.Tu ds);
    (Classtime.dW, Classtime.W ds); (Classtime.dTh, Classtime.Th ds);
    (Classtime.dF, Classtime.F ds) ].

(** [selectedDays]: the full names of the ticked days, comma
    separated. *)
Definition selectedDays (ds : Classtime.Days) : string :=
  JsArray.join ", "
    (map (fun e => dayNames (fst e)) (List.filter (fun e => snd e) (entries ds))).

End ClasstimeCard.

(** ** Token entry (component [GetAPI], Terms/GetAPI.jsx) *)

Module GetAPI.

Record state : Type := mkState
  { APIKEY : string;
    errorMessage : string;
    classes : list string }.

Definition initial : state := mkState "" "" [].

Section HandleEnter.

(** The two endpoints the handler calls: GET /api/courses with the
    token, GET /api/finalexam with a course list; [None] is a request
    that throws. *)
Variable courses_api : string -> option (list string).
Variable finalexam_api : list string -> option (list Event).

(** The [try] block of [handleEnter]: the state, the store and whether
    the [catch] branch ran.  The final-exam request is made with
    [classes], the state of the render the handler was created in;
    [setClasses] does not change it. *)
Definition fetch_all (s : state) (st : gmap string stored)
  : state * gmap string stored * bool :=
  match courses_api (Js.trim (APIKEY s)) with
  | None => (s, st, true)
  | Some fetchedCourses =>
      let st1 := storageSet {[ "courses" := Courses fetchedCourses ]} st in
      let s1 := mkState (APIKEY s) (errorMessage s) fetchedCourses in
      match finalexam_api (classes s) with
      | None => (s1, st1, true)
      | Some fetchedFinals =>
          (s1, storageSet {[ "finals" := Events fetchedFinals ]} st1, false)
      end
  end.

(** [handleEnter]: the state, the store, and whether [setEnter(true)]
    was called.  After the [try]/[catch], the flag and the token are
    stored in every case, and the callback clears the error message. *)
Definition handleEnter (s : state) (st : gmap string stored)
  : state * gmap string stored * bool :=
  if negb (Js.truthy (Js.trim (APIKEY s))) then
    (mkState (APIKEY s) "Please paste your API token before continuing." (classes s),
     st, false)
  else
    let '(s1, st1, caught) := fetch_all s st in
    let st2 :=
      storageSet {[ "enter" := Flag true; "token" := Token (Js.trim (APIKEY s)) ]} st1 in
    (mkState (APIKEY s1) "" (classes s1), st2, true).

End HandleEnter.

End GetAPI.

(** ** The root component (Body.jsx) *)

Module Body.

Inductive view : Type := ShowPopup | ShowGetAPI | ShowMain.

(** Truthiness of what a key holds; a missing key is [undefined]. *)
Definition truthy (v : option stored) : bool :=
  match v with
  | None => false
  | Some (Flag b) => b
  | Some (Token s) => Js.truthy s
  | Some (Classes _) | Some (Events _) | Some (Assignments _) | Some (Courses _) => true
  end.

(** The branches of the component's [return]. *)
Definition render (accepted enter : bool) : view :=
  if negb accepted then ShowPopup
  else if negb enter then ShowGetAPI
  else ShowMain.

(** What is shown once the two mount effects have read the store. *)
Definition mounted (st : gmap string stored) : view :=
  render (truthy (st !! "accepted")) (truthy (st !! "enter")).

End Body.

(** ** Sessions of refreshes *)

(** A page kept open while the user presses "Reparse" several times;
    [rs] are the answers of the successive requests. *)
Definition session {S R : Type}
    (reparse : option R -> S -> gmap string stored -> S * gmap string stored)
    (rs : list (option R)) (p : S * gmap string stored) : S * gmap string stored :=
  fold_left (fun acc r => reparse r (fst acc) (snd acc)) rs p.

(** The last answer that arrived, if any did. *)
Definition last_success {R : Type} (rs : list (option R)) : option R :=
  last (omap id rs).

(** The form's edits, applied in turn. *)
Definition edits (es : list Classtime.edit) : list Popup.gesture :=
  map Popup.Edit es.

(** An invariant of the popup built from a property [P] of the slots
    of the class list and a property [Q] of the form. *)
Definition popup_inv (P : option Classtime.ClassObj -> Prop)
    (Q : Classtime.ClassObj -> Prop) (a : Popup.app) : Prop :=
  Forall P (ClasstimePage.classes (Popup.page a))
  /\ Q (Popup.form a)
  /\ (forall l, Popup.store a !! "classData" = Some (Classes l) -> Forall P l).

(** ** The tabs (components [Main] and [ComponentSelect]) *)

Module Main.

Definition COMPONENT_TABS : list string :=
  ["Classes"; "Assignments"; "Midterms"; "Finals"].

(** The initial [activeTab], [COMPONENT_TABS[0]]. *)
Definition initial_tab : option string := COMPONENT_TABS !! 0%nat.

End Main.

Module ComponentSelect.

Inductive page : Type :=
| ShowClasstimePage
| ShowFinalExamPage
| ShowAssignmentPage
| ShowMidtermPage.

(** The chain of [if]s on [props.selectedTab]; [None] is the fall
    through, which renders nothing. *)
Definition select (selectedTab : string) : option page :=
  if String.eqb selectedTab "Classes" then Some ShowClasstimePage
  else if String.eqb selectedTab "Finals" then Some ShowFinalExamPage
  else if String.eqb selectedTab "Assignments" then Some ShowAssignmentPage
  else if String.eqb selectedTab "Midterms" then Some ShowMidtermPage
  else None.

End ComponentSelect.
(** * Properties *)

(** ** The time labels of the form *)

Section GenerateTimes.

Import Classtime.

(** Once the loop has returned, more fuel does not change its result. *)
Lemma generateTimes_loop_more fuel hour minute times r :
  generateTimes_loop fuel hour minute times = Some r ->
  generateTimes_loop (S fuel) hour minute times = Some r.
Proof.
  revert hour minute times.
  induction fuel as [|fuel IH]; intros hour minute times H; [discriminate|].
  change (generateTimes_loop (S (S fuel)) hour minute times)
    with (if ((hour <? 21) || ((hour =? 21) && (minute =? 0)))%Z
          then
            let times' :=
              times ++ [pretty (if (12 <? hour)%Z then (hour - 12)%Z else hour)
                          +:+ ":" +:+ (if (minute =? 0)%Z then "00" else pretty minute)
                          +:+ " " +:+ (if (12 <=? hour)%Z then "PM" else "AM")] in
            if (minute + 30 =? 60)%Z
            then generateTimes_loop (S fuel) (hour + 1)%Z 0%Z times'
            else generateTimes_loop (S fuel) hour (minute + 30)%Z times'
          else Some times).
  simpl in H.
  destruct ((hour <? 21) || ((hour =? 21) && (minute =? 0)))%Z; [|exact H].
  cbv zeta.
  destruct (minute + 30 =? 60)%Z; apply IH; exact H.
Qed.

Lemma generateTimes_loop_enough extra :
  generateTimes_loop (28 + extra) 8 0 [] = Some allTimes.
Proof.
  induction extra as [|extra IH].
  - vm_compute. reflexivity.
  - replace (28 + S extra)%nat with (S (28 + extra)) by lia.
    apply generateTimes_loop_more, IH.
Qed.

Lemma allTimes_minutes :
  map timeToMinutes allTimes
  = map (fun k => Js.Num (480 + 30 * Z.of_nat k)) (seq 0 27).
Proof. vm_compute. reflexivity. Qed.

Lemma allTimes_lookup_minutes k t :
  allTimes !! k = Some t ->
  (k < 27)%nat /\ timeToMinutes t = Js.Num (480 + 30 * Z.of_nat k).
Proof.
  intros Hk.
  assert (Hlen : length allTimes = 27%nat) by (vm_compute; reflexivity).
  assert (Hlt : (k < 27)%nat).
  { rewrite <- Hlen. eapply lookup_lt_Some, Hk. }
  split; [exact Hlt|].
  assert (Hm : map timeToMinutes allTimes !! k = Some (timeToMinutes t)).
  { change (map timeToMinutes allTimes) with (timeToMinutes <$> allTimes).
    rewrite list_lookup_fmap, Hk. reflexivity. }
  rewrite allTimes_minutes in Hm.
  change (map (fun k => Js.Num (480 + 30 * Z.of_nat k)) (seq 0 27))
    with ((fun k => Js.Num (480 + 30 * Z.of_nat k)) <$> seq 0 27) in Hm.
  rewrite list_lookup_fmap, lookup_seq_lt in Hm by exact Hlt.
  simpl in Hm. congruence.
Qed.

Lemma validEndTimes_subset start t :
  t ∈ validEndTimes start -> t ∈ allTimes.
Proof.
  unfold validEndTimes. destruct (Js.truthy start); [|tauto].
  rewrite list_elem_of_In, filter_In, <- list_elem_of_In. tauto.
Qed.

End GenerateTimes.

(** C9. [generateTimes] returns (whatever fuel beyond the 28 loop tests
    it is given) exactly 27 labels, ["8:00 AM"] to ["9:00 PM"]; the
    k-th label denotes minute 480 + 30k of the day, so the labels are
    30 minutes apart and strictly increasing; every start option and
    every end option of the form lies between 08:00 and 21:00. *)
Theorem generateTimes_labels :
  (forall extra, Classtime.generateTimes_loop (28 + extra) 8 0 [] = Some Classtime.allTimes)
  /\ Classtime.generateTimes = Some Classtime.allTimes
  /\ length Classtime.allTimes = 27%nat
  /\ head Classtime.allTimes = Some "8:00 AM"
  /\ last Classtime.allTimes = Some "9:00 PM"
  /\ (forall k t, Classtime.allTimes !! k = Some t ->
        Classtime.timeToMinutes t = Js.Num (480 + 30 * Z.of_nat k))
  /\ (forall i j ti tj,
        Classtime.allTimes !! i = Some ti -> Classtime.allTimes !! j = Some tj ->
        (i < j)%nat ->
        exists mi mj, Classtime.timeToMinutes ti = Js.Num mi
                      /\ Classtime.timeToMinutes tj = Js.Num mj /\ (mi < mj)%Z)
  /\ (forall start t,
        t ∈ Classtime.allTimes \/ t ∈ Classtime.validEndTimes start ->
        exists m, Classtime.timeToMinutes t = Js.Num m /\ (8 * 60 <= m <= 21 * 60)%Z).
Proof.
  split; [exact generateTimes_loop_enough|].
  split; [vm_compute; reflexivity|].
  split; [vm_compute; reflexivity|].
  split; [vm_compute; reflexivity|].
  split; [vm_compute; reflexivity|].
  split; [intros k t H; apply allTimes_lookup_minutes, H|].
  split.
  - intros i j ti tj Hi Hj Hij.
    apply allTimes_lookup_minutes in Hi as [_ Hi].
    apply allTimes_lookup_minutes in Hj as [_ Hj].
    eexists _, _. split; [exact Hi|]. split; [exact Hj|]. lia.
  - intros start t Ht.
    assert (Hin : t ∈ Classtime.allTimes).
    { destruct Ht as [Ht|Ht]; [exact Ht|]. eapply validEndTimes_subset, Ht. }
    apply list_elem_of_lookup in Hin as [k Hk].
    apply allTimes_lookup_minutes in Hk as [Hlt Hk].
    eexists. split; [exact Hk|]. lia.
Qed.

(** ** Writes to the store *)

Section StoreWrites.

Implicit Types (st : gmap string stored) (k : string) (v : stored).

Lemma storageSet_singleton k v st :
  storageSet {[ k := v ]} st = <[ k := v ]> st.
Proof. unfold storageSet. symmetry. apply insert_union_singleton_l. Qed.

Lemma storageSet_lookup_same k v st :
  storageSet {[ k := v ]} st !! k = Some v.
Proof. rewrite storageSet_singleton. apply lookup_insert_eq. Qed.

Lemma storageSet_lookup_other k k' v st :
  k' <> k -> storageSet {[ k := v ]} st !! k' = st !! k'.
Proof. intros Hne. rewrite storageSet_singleton. apply lookup_insert_ne. congruence. Qed.

(** What a refresh call leaves in the store: the old store, or the old
    store with the category's key overwritten. *)
Lemma refresh_shape (r : refresh_call) st :
  refresh r st = st
  \/ exists v, refresh r st = <[ category_key (call_category r) := v ]> st.
Proof.
  destruct r as [obj s|i s|[a|] s|[l|] s|[l|] s]; simpl;
    try (left; reflexivity); right.
  - unfold ClasstimePage.handleSave.
    destruct (ClasstimePage.editingIndex s); simpl;
      eexists; apply storageSet_singleton.
  - eexists; apply storageSet_singleton.
  - eexists; apply storageSet_singleton.
  - eexists; apply storageSet_singleton.
  - eexists; apply storageSet_singleton.
Qed.

End StoreWrites.

(** C6. A refresh of one category writes that category's key only:
    whatever the store held before, valid or not, every other key, and
    so each of the other three categories, reads the same afterwards. *)
Theorem refresh_writes_own_category (r : refresh_call) (st : gmap string stored)
    (k : string) :
  k <> category_key (call_category r) ->
  refresh r st !! k = st !! k.
Proof.
  intros Hne.
  destruct (refresh_shape r st) as [Heq|[v Heq]]; rewrite Heq.
  - reflexivity.
  - apply lookup_insert_ne. congruence.
Qed.

Lemma refresh_midterms_keeps_finals :
  let prior : gmap string stored :=
    {[ "finals" := Events [mkEvent "CPEN 221" "final" "2025/12/10" "12:00:00" "14:30:00" (Some "ESB 1319")] ]} in
  refresh (ReparseMidterms (Some info) (MidtermPage.load prior)) prior
    !! category_key final_exams
  = prior !! category_key final_exams.
Proof.
  intros prior.
  apply (refresh_writes_own_category
           (ReparseMidterms (Some info) (MidtermPage.load prior)) prior
           (category_key final_exams)).
  simpl. discriminate.
Defined.

(** ** Edits of the class list *)

Section ClassList.

Context {A : Type}.
Implicit Types (a : list A) (i j : nat).

Lemma filter_index_ne_from index pos a :
  Js.filter_index_ne index pos a
  = if decide (pos <= index) then delete (index - pos) a else a.
Proof.
  revert pos. induction a as [|x a IH]; intros pos; simpl.
  - destruct (decide (pos <= index)); [destruct (index - pos)|]; reflexivity.
  - destruct (Nat.eqb_spec pos index) as [->|Hne].
    + rewrite IH. rewrite Nat.sub_diag.
      destruct (decide (index <= index)); [|lia].
      destruct (decide (S index <= index)); [lia|]. reflexivity.
    + rewrite IH.
      destruct (decide (pos <= index)) as [Hle|Hgt].
      * destruct (decide (S pos <= index)); [|lia].
        replace (index - pos) with (S (index - S pos)) by lia. reflexivity.
      * destruct (decide (S pos <= index)); [lia|]. reflexivity.
Qed.

Lemma filter_index_ne_delete index a :
  Js.filter_index_ne index 0 a = delete index a.
Proof.
  rewrite filter_index_ne_from. destruct (decide (0 <= index)); [|lia].
  rewrite Nat.sub_0_r. reflexivity.
Qed.

Lemma array_assign_in_range (l : list (option A)) i v :
  i < length l -> Js.array_assign l i v = <[ i := Some v ]> l.
Proof. intros Hlt. unfold Js.array_assign. destruct (decide (i < length l)); [reflexivity|lia]. Qed.

Lemma array_assign_lookup_other (l : list (option A)) i j v :
  j <> i -> j < length l -> Js.array_assign l i v !! j = l !! j.
Proof.
  intros Hne Hlt. unfold Js.array_assign.
  destruct (decide (i < length l)).
  - apply list_lookup_insert_ne. congruence.
  - apply lookup_app_l. exact Hlt.
Qed.

Lemma array_assign_lookup_same (l : list (option A)) i v :
  Js.array_assign l i v !! i = Some (Some v).
Proof.
  unfold Js.array_assign. destruct (decide (i < length l)) as [Hlt|Hge].
  - apply list_lookup_insert_eq, Hlt.
  - rewrite lookup_app_r by lia.
    rewrite lookup_app_r by (rewrite length_replicate; lia).
    rewrite length_replicate. rewrite Nat.sub_diag. reflexivity.
Qed.

End ClassList.

(** C10. [handleSave] in edit mode writes the entry at [editingIndex]
    and nothing else: every other existing position reads as before and,
    the index being one of the list's, the list keeps its length and
    order; without an index it appends, keeping every existing position;
    [handleDelete index] removes the entry at [index], so positions below
    it are kept and positions from it on read the old next entry.  In
    each case the list put under [classData] is the list the page state
    holds. *)
Theorem class_edits_touch_one_entry
    (classObj : Classtime.ClassObj) (s : ClasstimePage.state)
    (st : gmap string stored) :
  (forall i, ClasstimePage.editingIndex s = Some i ->
     let '(s', st') := ClasstimePage.handleSave classObj s st in
     ClasstimePage.classes s' !! i = Some (Some classObj)
     /\ (forall j, j <> i -> (j < length (ClasstimePage.classes s))%nat ->
           ClasstimePage.classes s' !! j = ClasstimePage.classes s !! j)
     /\ ((i < length (ClasstimePage.classes s))%nat ->
           ClasstimePage.classes s' = <[ i := Some classObj ]> (ClasstimePage.classes s)
           /\ length (ClasstimePage.classes s') = length (ClasstimePage.classes s))
     /\ st' !! "classData" = Some (Classes (ClasstimePage.classes s')))
  /\ (ClasstimePage.editingIndex s = None ->
     let '(s', st') := ClasstimePage.handleSave classObj s st in
     ClasstimePage.classes s' = ClasstimePage.classes s ++ [Some classObj]
     /\ (forall j, (j < length (ClasstimePage.classes s))%nat ->
           ClasstimePage.classes s' !! j = ClasstimePage.classes s !! j)
     /\ st' !! "classData" = Some (Classes (ClasstimePage.classes s')))
  /\ (forall index, (index < length (ClasstimePage.classes s))%nat ->
     let '(s', st') := ClasstimePage.handleDelete index s st in
     ClasstimePage.classes s'
       = take index (ClasstimePage.classes s) ++ drop (S index) (ClasstimePage.classes s)
     /\ S (length (ClasstimePage.classes s')) = length (ClasstimePage.classes s)
     /\ (forall j, (j < index)%nat ->
           ClasstimePage.classes s' !! j = ClasstimePage.classes s !! j)
     /\ (forall j, (index <= j)%nat ->
           ClasstimePage.classes s' !! j = ClasstimePage.classes s !! S j)
     /\ st' !! "classData" = Some (Classes (ClasstimePage.classes s'))).
Proof.
  split; [|split].
  - intros i Hi. unfold ClasstimePage.handleSave. rewrite Hi. simpl.
    split; [apply array_assign_lookup_same|].
    split; [intros j Hj Hlt; apply array_assign_lookup_other; assumption|].
    split; [|apply storageSet_lookup_same].
    intros Hlt. rewrite array_assign_in_range by exact Hlt.
    split; [reflexivity|apply length_insert].
  - intros Hnone. unfold ClasstimePage.handleSave. rewrite Hnone. simpl.
    split; [reflexivity|].
    split; [intros j Hj; apply lookup_app_l, Hj|].
    apply storageSet_lookup_same.
  - intros index Hlt. unfold ClasstimePage.handleDelete. simpl.
    rewrite filter_index_ne_delete.
    split; [apply delete_take_drop|].
    split.
    { rewrite length_delete by (apply lookup_lt_is_Some_2, Hlt).
      destruct (ClasstimePage.classes s); simpl in *; lia. }
    split; [intros j Hj; apply list_lookup_delete_lt, Hj|].
    split; [intros j Hj; apply list_lookup_delete_ge, Hj|].
    apply storageSet_lookup_same.
Qed.

Lemma class_edits_on_three_classes :
  let c name := Some (Classtime.mkClass name (Classtime.toggle Classtime.dM Classtime.no_days)
                        "8:00 AM" "9:00 AM") in
  let s := ClasstimePage.mkState [c "CPEN 221"; c "MATH 253"; c "ELEC 201"] false (Some 1%nat) in
  let edited := Classtime.mkClass "MATH 256" (Classtime.toggle Classtime.dTu Classtime.no_days)
                  "1:00 PM" "2:30 PM" in
  ClasstimePage.classes (fst (ClasstimePage.handleSave edited s ∅))
    = [c "CPEN 221"; Some edited; c "ELEC 201"]
  /\ ClasstimePage.classes (fst (ClasstimePage.handleDelete 1 s ∅))
    = [c "CPEN 221"; c "ELEC 201"].
Proof.
  intros c s edited.
  destruct (class_edits_touch_one_entry edited s ∅) as (Hsave & _ & Hdel).
  split.
  - specialize (Hsave 1%nat eq_refl).
    destruct (ClasstimePage.handleSave edited s ∅) as [s' st'].
    destruct Hsave as (_ & _ & Hin & _).
    destruct Hin as [Heq _]; [simpl; lia|].
    simpl. rewrite Heq. reflexivity.
  - specialize (Hdel 1%nat ltac:(simpl; lia)).
    destruct (ClasstimePage.handleDelete 1 s ∅) as [s' st'].
    destruct Hdel as (Heq & _).
    simpl. rewrite Heq. reflexivity.
Defined.

(** ** The class-entry form *)

Section Form.

Import Classtime.

Lemma is_option_elim v opts :
  is_option v opts = true -> v = "" \/ v ∈ opts.
Proof.
  unfold is_option. simpl. rewrite orb_true_iff.
  intros [H|H].
  - left. apply String.eqb_eq in H. exact H.
  - right. apply existsb_exists in H as (x & Hin & Hx).
    apply String.eqb_eq in Hx. subst x. apply list_elem_of_In, Hin.
Qed.

Lemma truthy_true s : Js.truthy s = true <-> s <> "".
Proof.
  unfold Js.truthy. rewrite negb_true_iff. split.
  - intros H ->. rewrite String.eqb_refl in H. discriminate.
  - intros H. apply String.eqb_neq, H.
Qed.

Lemma add_not_null a b : Js.add a b <> Js.Null.
Proof. unfold Js.add. destruct (Js.to_number a), (Js.to_number b); discriminate. Qed.

Lemma timeToMinutes_truthy_not_null t :
  Js.truthy t = true -> timeToMinutes t <> Js.Null.
Proof. intros Ht. unfold timeToMinutes. rewrite Ht. cbv zeta. apply add_not_null. Qed.

(** A label offered as end time is at least 30 minutes after the start. *)
Lemma validEndTimes_after start v :
  Js.truthy start = true -> v ∈ validEndTimes start ->
  exists s e, timeToMinutes start = Js.Num s /\ timeToMinutes v = Js.Num e
              /\ (s + 30 <= e)%Z.
Proof.
  intros Hs Hv. unfold validEndTimes in Hv. rewrite Hs in Hv.
  apply list_elem_of_In, filter_In in Hv as [Hin Hge].
  apply list_elem_of_In, list_elem_of_lookup in Hin as [k Hk].
  apply allTimes_lookup_minutes in Hk as [_ Hk].
  rewrite Hk in Hge.
  pose proof (timeToMinutes_truthy_not_null start Hs) as Hnn.
  destruct (timeToMinutes start) as [| |s]; [congruence|discriminate|].
  simpl in Hge. apply Z.leb_le in Hge.
  eexists _, _. split; [reflexivity|]. split; [exact Hk|]. lia.
Qed.

Lemma apply_edit_ok e f : form_ok f -> form_ok (apply_edit e f).
Proof.
  intros Hf. destruct e as [s|d|v|v]; simpl.
  - exact Hf.
  - exact Hf.
  - destruct (is_option v allTimes); [left; reflexivity|exact Hf].
  - destruct (Js.truthy (startTime f)) eqn:Hs; [|exact Hf].
    destruct (is_option v (validEndTimes (startTime f))) eqn:Hv; [|exact Hf].
    simpl. apply is_option_elim in Hv as [->|Hv]; [left; reflexivity|].
    right. apply validEndTimes_after; assumption.
Qed.

Lemma isValid_true f :
  isValid f = true ->
  Js.trim (className f) <> "" /\ some_day (days f) = true
  /\ startTime f <> "" /\ endTime f <> "".
Proof.
  unfold isValid. rewrite !andb_true_iff, !negb_true_iff.
  intros [[[H1 H2] H3] H4].
  repeat split; try assumption; intros E; rewrite E in *; discriminate.
Qed.

Lemma some_day_no_days : some_day no_days = false.
Proof. reflexivity. Qed.

Lemma isValid_false f :
  Js.trim (className f) = "" \/ days f = no_days
  \/ startTime f = "" \/ endTime f = "" ->
  isValid f = false.
Proof.
  intros H. destruct (isValid f) eqn:E; [|reflexivity].
  apply isValid_true in E as (H1 & H2 & H3 & H4).
  destruct H as [H|[H|[H|H]]]; try contradiction.
  rewrite H, some_day_no_days in H2. discriminate.
Qed.

Lemma handleSubmit_saved f obj f' :
  handleSubmit f = (Some obj, f') -> obj = f /\ f' = blank /\ isValid f = true.
Proof.
  unfold handleSubmit. destruct (isValid f); intros H; inversion H; auto.
Qed.

Lemma mount_ok d : slot_ok d -> form_ok (mount d).
Proof.
  destruct d as [c|]; simpl; intros H; [right; exact H|left; reflexivity].
Qed.

End Form.

(** C8. A submission with a blank course name (after trimming), no
    weekday ticked, or a missing start or end time does not reach
    [onSave], and the click leaves the whole popup (the class list, the
    store and the form) as it was. *)
Theorem invalid_submission_is_not_saved (a : Popup.app) :
  Js.trim (Classtime.className (Popup.form a)) = ""
  \/ Classtime.days (Popup.form a) = Classtime.no_days
  \/ Classtime.startTime (Popup.form a) = ""
  \/ Classtime.endTime (Popup.form a) = "" ->
  Classtime.handleSubmit (Popup.form a) = (None, Popup.form a)
  /\ Popup.step Popup.ClickSubmit a = a
  /\ ClasstimePage.classes (Popup.page (Popup.step Popup.ClickSubmit a))
     = ClasstimePage.classes (Popup.page a)
  /\ Popup.store (Popup.step Popup.ClickSubmit a) = Popup.store a.
Proof.
  intros Hbad. apply isValid_false in Hbad.
  assert (Hsub : Classtime.handleSubmit (Popup.form a) = (None, Popup.form a)).
  { unfold Classtime.handleSubmit. rewrite Hbad. reflexivity. }
  assert (Hstep : Popup.step Popup.ClickSubmit a = a).
  { unfold Popup.step. rewrite Hsub.
    destruct (ClasstimePage.showInput (Popup.page a)); [|reflexivity].
    destruct a; reflexivity. }
  rewrite Hstep. repeat split; assumption.
Qed.

Lemma blank_name_submission_is_not_saved :
  let f := Classtime.mkClass "   " (Classtime.toggle Classtime.dW Classtime.no_days)
             "8:00 AM" "9:30 AM" in
  let a := Popup.mkApp ClasstimePage.initial f ∅ in
  Classtime.handleSubmit f = (None, f) /\ Popup.step Popup.ClickSubmit a = a.
Proof.
  intros f a.
  destruct (invalid_submission_is_not_saved a) as (H1 & H2 & _).
  - left. reflexivity.
  - split; [exact H1|exact H2].
Defined.

(** ** Start and end times of stored entries *)

Section PopupInvariant.

Implicit Types (a : Popup.app) (p : ClasstimePage.state) (st : gmap string stored).

Lemma array_assign_ok (l : list (option Classtime.ClassObj)) i c :
  Forall slot_ok l -> meeting_times_ok c -> Forall slot_ok (Js.array_assign l i c).
Proof.
  intros Hl Hc. unfold Js.array_assign. destruct (decide (i < length l)).
  - apply Forall_insert; assumption.
  - apply Forall_app. split; [exact Hl|].
    apply Forall_app. split.
    + apply Forall_replicate. exact I.
    + apply Forall_cons. split; [exact Hc|apply Forall_nil_2].
Qed.

Lemma stored_classes_ok_set l st :
  Forall slot_ok l -> stored_classes_ok (storageSet {[ "classData" := Classes l ]} st).
Proof.
  intros Hl l' Hl'. rewrite storageSet_lookup_same in Hl'.
  inversion Hl'; subst. exact Hl.
Qed.

Lemma initialData_ok p :
  Forall slot_ok (ClasstimePage.classes p) -> slot_ok (ClasstimePage.initialData p).
Proof.
  intros Hl. unfold ClasstimePage.initialData.
  destruct (ClasstimePage.editingIndex p) as [i|]; [|exact I].
  destruct (ClasstimePage.classes p !! i) as [slot|] eqn:Hi; [|exact I].
  simpl. eapply Forall_lookup_1; eassumption.
Qed.

Lemma show_ok visible p f :
  Forall slot_ok (ClasstimePage.classes p) -> form_ok f ->
  form_ok (Popup.show visible p f).
Proof.
  intros Hl Hf. unfold Popup.show.
  destruct (ClasstimePage.showInput p && negb visible); [|exact Hf].
  apply mount_ok, initialData_ok, Hl.
Qed.

Lemma handleSave_ok c p st :
  meeting_times_ok c -> Forall slot_ok (ClasstimePage.classes p) ->
  Forall slot_ok (ClasstimePage.classes (ClasstimePage.handleSave c p st).1)
  /\ stored_classes_ok (ClasstimePage.handleSave c p st).2.
Proof.
  intros Hc Hl. unfold ClasstimePage.handleSave.
  destruct (ClasstimePage.editingIndex p) as [i|]; simpl.
  - pose proof (array_assign_ok _ i c Hl Hc) as H.
    split; [exact H|apply stored_classes_ok_set, H].
  - assert (H : Forall slot_ok (ClasstimePage.classes p ++ [Some c])).
    { apply Forall_app. split; [exact Hl|].
      apply Forall_cons. split; [exact Hc|apply Forall_nil_2]. }
    split; [exact H|apply stored_classes_ok_set, H].
Qed.

Lemma handleDelete_ok index p st :
  Forall slot_ok (ClasstimePage.classes p) ->
  Forall slot_ok (ClasstimePage.classes (ClasstimePage.handleDelete index p st).1)
  /\ stored_classes_ok (ClasstimePage.handleDelete index p st).2.
Proof.
  intros Hl. unfold ClasstimePage.handleDelete. simpl.
  rewrite filter_index_ne_delete.
  pose proof (Forall_delete slot_ok _ index Hl) as H.
  split; [exact H|apply stored_classes_ok_set, H].
Qed.

Lemma submitted_form_ok f : form_ok f -> Classtime.isValid f = true -> meeting_times_ok f.
Proof.
  intros [Hend|Hok] Hv; [|exact Hok].
  apply isValid_true in Hv as (_ & _ & _ & Hne). contradiction.
Qed.

Lemma start_ok st : stored_classes_ok st -> popup_ok (Popup.start st).
Proof.
  intros Hst. unfold popup_ok, Popup.start. simpl.
  split; [|split; [left; reflexivity|exact Hst]].
  unfold ClasstimePage.load.
  destruct (st !! "classData") as [[l| | | | |]|] eqn:Hk; simpl;
    try apply Forall_nil_2.
  apply Hst, Hk.
Qed.

Lemma step_ok g a : popup_ok a -> popup_ok (Popup.step g a).
Proof.
  intros (Hl & Hf & Hst). unfold Popup.step.
  destruct g as [e| |index|index|].
  - destruct (ClasstimePage.showInput (Popup.page a)); [|repeat split; assumption].
    split; [exact Hl|]. split; [apply apply_edit_ok, Hf|exact Hst].
  - destruct (ClasstimePage.showInput (Popup.page a)); [|repeat split; assumption].
    destruct (Classtime.handleSubmit (Popup.form a)) as [[obj|] f'] eqn:Hsub.
    + apply handleSubmit_saved in Hsub as (-> & -> & Hv).
      pose proof (submitted_form_ok _ Hf Hv) as Hc.
      destruct (handleSave_ok (Popup.form a) (Popup.page a) (Popup.store a) Hc Hl)
        as [Hl' Hst'].
      destruct (ClasstimePage.handleSave _ _ _) as [p' st']. simpl in *.
      split; [exact Hl'|]. split; [|exact Hst'].
      apply show_ok; [exact Hl'|left; reflexivity].
    + unfold Classtime.handleSubmit in Hsub.
      destruct (Classtime.isValid (Popup.form a)); inversion Hsub; subst.
      repeat split; assumption.
  - destruct (negb _ && bool_decide _); [|repeat split; assumption].
    split; [exact Hl|]. split; [|exact Hst].
    apply show_ok; assumption.
  - destruct (negb _ && bool_decide _); [|repeat split; assumption].
    destruct (handleDelete_ok index (Popup.page a) (Popup.store a) Hl) as [Hl' Hst'].
    destruct (ClasstimePage.handleDelete _ _ _) as [p' st']. simpl in *.
    split; [exact Hl'|]. split; [|exact Hst'].
    apply show_ok; assumption.
  - destruct (negb _); [|repeat split; assumption].
    split; [exact Hl|]. split; [|exact Hst].
    apply show_ok; assumption.
Qed.

(** The edit index stays within the list: [handleSave] never writes
    past its end, so the list never gets an empty slot. *)
Lemma step_index_ok g a : popup_index_ok a -> popup_index_ok (Popup.step g a).
Proof.
  intros Ha. pose proof Ha as [Hall Hidx]. unfold Popup.step.
  destruct (ClasstimePage.showInput (Popup.page a)) eqn:Hvis.
  - destruct g as [e| |index|index|]; simpl; try exact Ha.
    destruct (Classtime.handleSubmit (Popup.form a)) as [[obj|] f']; [|exact Ha].
    unfold ClasstimePage.handleSave.
    destruct (ClasstimePage.editingIndex (Popup.page a)) as [i|]; simpl.
    + destruct Hidx as [Hlt _]. rewrite array_assign_in_range by exact Hlt.
      split; [|exact I]. apply Forall_insert; [exact Hall|eexists; reflexivity].
    + split; [|exact I]. apply Forall_app. split; [exact Hall|].
      apply Forall_cons. split; [eexists; reflexivity|apply Forall_nil_2].
  - assert (Hnone : ClasstimePage.editingIndex (Popup.page a) = None).
    { destruct (ClasstimePage.editingIndex (Popup.page a)); [|reflexivity].
      destruct Hidx as [_ Hshow]. discriminate. }
    destruct g as [e| |index|index|]; simpl; try exact Ha.
    + destruct (bool_decide (index < length _)) eqn:Hlt; [|exact Ha].
      apply bool_decide_eq_true in Hlt. simpl.
      split; [exact Hall|]. split; [exact Hlt|reflexivity].
    + destruct (bool_decide (index < length _)); [|exact Ha].
      split; simpl; [|rewrite Hnone; exact I].
      rewrite filter_index_ne_delete. apply Forall_delete, Hall.
    + split; simpl; [exact Hall|rewrite Hnone; exact I].
Qed.

Lemma start_index_ok st :
  (forall l, st !! "classData" = Some (Classes l) -> Forall is_Some l) ->
  popup_index_ok (Popup.start st).
Proof.
  intros Hst. unfold popup_index_ok, Popup.start, ClasstimePage.load. simpl.
  destruct (st !! "classData") as [[l| | | | |]|] eqn:Hk; simpl;
    (split; [try apply Forall_nil_2|exact I]).
  apply Hst. reflexivity.
Qed.

Lemma run_index_ok gs a : popup_index_ok a -> popup_index_ok (Popup.run gs a).
Proof.
  revert a. induction gs as [|g gs IH]; intros a Ha; simpl; [exact Ha|].
  apply IH, step_index_ok, Ha.
Qed.

Lemma run_ok gs a : popup_ok a -> popup_ok (Popup.run gs a).
Proof.
  revert a. induction gs as [|g gs IH]; intros a Ha; simpl; [exact Ha|].
  apply IH, step_ok, Ha.
Qed.

End PopupInvariant.

(** C7, as the code has it.  Starting from a store whose class list is
    well ordered (an empty store is), after any sequence of gestures
    every class in the page's list and under [classData] has its end
    time at least 30 minutes after its start time, and so has every
    object the form hands to [onSave]. *)
Theorem saved_meetings_end_after_start
    (st : gmap string stored) (gs : list Popup.gesture) :
  stored_classes_ok st ->
  let a := Popup.run gs (Popup.start st) in
  Forall slot_ok (ClasstimePage.classes (Popup.page a))
  /\ stored_classes_ok (Popup.store a)
  /\ (forall classObj f',
        Classtime.handleSubmit (Popup.form a) = (Some classObj, f') ->
        exists s e,
          Classtime.timeToMinutes (Classtime.startTime classObj) = Js.Num s
          /\ Classtime.timeToMinutes (Classtime.endTime classObj) = Js.Num e
          /\ (s + 30 <= e)%Z /\ (s < e)%Z).
Proof.
  intros Hst a.
  destruct (run_ok gs _ (start_ok st Hst)) as (Hl & Hf & Hst').
  fold a in Hl, Hf, Hst'.
  split; [exact Hl|]. split; [exact Hst'|].
  intros classObj f' Hsub.
  apply handleSubmit_saved in Hsub as (-> & _ & Hv).
  destruct (submitted_form_ok _ Hf Hv) as (s & e & Hs & He & Hle).
  exists s, e. repeat split; try assumption. lia.
Qed.

Lemma saved_meeting_after_entry :
  let gs := [ Popup.Edit (Classtime.TypeName "CPEN 221");
              Popup.Edit (Classtime.ToggleDay Classtime.dTu);
              Popup.Edit (Classtime.SelectStart "9:00 AM");
              Popup.Edit (Classtime.SelectEnd "10:30 AM");
              Popup.ClickSubmit ] in
  stored_classes_ok ∅
  /\ ClasstimePage.classes (Popup.page (Popup.run gs (Popup.start ∅)))
     = [Some (Classtime.mkClass "CPEN 221" (Classtime.toggle Classtime.dTu Classtime.no_days)
                "9:00 AM" "10:30 AM")]
  /\ Forall slot_ok (ClasstimePage.classes (Popup.page (Popup.run gs (Popup.start ∅)))).
Proof.
  intros gs.
  assert (Hempty : stored_classes_ok ∅).
  { intros l Hl. rewrite lookup_empty in Hl. discriminate. }
  split; [exact Hempty|]. split; [vm_compute; reflexivity|].
  exact (proj1 (saved_meetings_end_after_start ∅ gs Hempty)).
Defined.

(** C7, as stated, fails for fetched events: a midterm refresh stores
    the server's answer as it arrives, and the sample record of the
    midterm page (12:00:00 to 1:00:00) then sits in the store with its
    end before its start. *)
Lemma fetched_event_end_before_start :
  let st := refresh (ReparseMidterms (Some info) (MidtermPage.load ∅)) ∅ in
  exists ev b e,
    st !! "midterms" = Some (Events [ev])
    /\ clock_seconds (begin_date_time ev) = Some b
    /\ clock_seconds (end_date_time ev) = Some e
    /\ (e < b)%Z
    /\ ~ stored_events_ordered st.
Proof.
  intros st.
  exists (mkEvent "MATH 253" "Midterm" "2025/10/15" "12:00:00" "1:00:00" None),
    43200%Z, 3600%Z.
  assert (Hst : st !! "midterms" = Some (Events info)).
  { apply storageSet_lookup_same. }
  split; [exact Hst|]. split; [reflexivity|]. split; [reflexivity|].
  split; [lia|].
  intros Hord. specialize (Hord _ _ Hst).
  apply Forall_cons in Hord as [Hev _].
  specialize (Hev 43200%Z 3600%Z eq_refl eq_refl). lia.
Qed.

(** ** The course identifier parser *)

Section Parser.

Import Backend.

Variable is_separator : ascii -> bool.

Lemma append_nil_l x : "" +:+ x = x.
Proof. reflexivity. Qed.

Lemma append_cons c l x : String c l +:+ x = String c (l +:+ x).
Proof. reflexivity. Qed.

Lemma digit_not_upper c : is_digit c = true -> is_upper c = false.
Proof.
  unfold is_digit, is_upper. cbv zeta.
  rewrite andb_true_iff, andb_false_iff, !Nat.leb_le, Nat.leb_gt. lia.
Qed.

Lemma span_upper_sound s l r :
  span_upper s = (l, r) -> s = l +:+ r /\ all_chars is_upper l = true.
Proof.
  revert l r. induction s as [|c s IH]; intros l r H; simpl in H.
  - inversion H. split; reflexivity.
  - destruct (is_upper c) eqn:Hc.
    + destruct (span_upper s) as [l' r'] eqn:Hs. inversion H; subst.
      destruct (IH l' r eq_refl) as [-> Hall].
      split; [reflexivity|]. simpl. rewrite Hc, Hall. reflexivity.
    + inversion H. split; reflexivity.
Qed.

Lemma span_upper_app l x :
  all_chars is_upper l = true ->
  span_upper (l +:+ x) = ((l +:+ (span_upper x).1), (span_upper x).2).
Proof.
  induction l as [|c l IH]; simpl; intros Hall.
  - rewrite !append_nil_l. destruct (span_upper x); reflexivity.
  - apply andb_true_iff in Hall as [Hc Hl].
    rewrite !append_cons. simpl. rewrite Hc, (IH Hl). reflexivity.
Qed.

Lemma span_upper_digit_first c x :
  is_digit c = true -> span_upper (String c x) = ("", String c x).
Proof. intros Hc. simpl. rewrite (digit_not_upper c Hc). reflexivity. Qed.

Lemma parse_code_sound s c :
  parse_code s = Some c ->
  c = s /\ exists digits tail,
    s = digits +:+ tail /\ String.length digits = 3
    /\ all_chars is_digit digits = true
    /\ (tail = "" \/ exists l, tail = String l "" /\ is_upper l = true).
Proof.
  unfold parse_code.
  destruct s as [|a [|b [|d rest]]]; try discriminate.
  destruct (is_digit a && is_digit b && is_digit d) eqn:Hd; [|discriminate].
  apply andb_true_iff in Hd as [Hab Hd]. apply andb_true_iff in Hab as [Ha Hb].
  intros H.
  assert (Hc : c = String a (String b (String d rest))
               /\ (rest = "" \/ exists l, rest = String l "" /\ is_upper l = true)).
  { destruct rest as [|l [|l' rest']].
    - inversion H. split; [reflexivity|left; reflexivity].
    - destruct (is_upper l) eqn:Hl; inversion H.
      split; [reflexivity|right; exists l; split; [reflexivity|exact Hl]].
    - discriminate. }
  destruct Hc as [-> Htail]. split; [reflexivity|].
  exists (String a (String b (String d ""))), rest.
  split; [reflexivity|]. split; [reflexivity|].
  split; [simpl; rewrite Ha, Hb, Hd; reflexivity|exact Htail].
Qed.

Lemma parse_code_complete digits tail :
  String.length digits = 3 -> all_chars is_digit digits = true ->
  (tail = "" \/ exists l, tail = String l "" /\ is_upper l = true) ->
  parse_code (digits +:+ tail) = Some (digits +:+ tail)
  /\ exists c x, digits +:+ tail = String c x /\ is_digit c = true.
Proof.
  intros Hlen Hall Htail.
  destruct digits as [|a [|b [|d [|]]]]; simpl in Hlen; try discriminate.
  simpl in Hall. rewrite andb_true_r in Hall.
  apply andb_true_iff in Hall as [Ha Hbd]. apply andb_true_iff in Hbd as [Hb Hd].
  rewrite !append_cons, append_nil_l.
  split.
  - simpl. rewrite Ha, Hb, Hd. simpl.
    destruct Htail as [->|(l & -> & Hl)]; [reflexivity|].
    rewrite Hl. reflexivity.
  - eexists _, _. split; [reflexivity|exact Ha].
Qed.

Lemma append_nonempty l x : l <> "" -> l +:+ x <> "".
Proof. destruct l; [congruence|discriminate]. Qed.

Lemma parse_sound raw id :
  parse is_separator raw = Some id -> course_form is_separator raw.
Proof.
  unfold parse. destruct (span_upper raw) as [subj rest] eqn:Hspan.
  apply span_upper_sound in Hspan as [-> Hup].
  destruct (String.eqb_spec subj "") as [|Hne]; [discriminate|].
  destruct (parse_code rest) as [c|] eqn:Hcode.
  - intros _. apply parse_code_sound in Hcode as (_ & digits & tail & -> & Hlen & Hdig & Htail).
    exists subj, "", digits, tail. simpl.
    repeat split; try assumption. left; reflexivity.
  - destruct rest as [|sep rest']; [discriminate|].
    destruct (is_separator sep) eqn:Hsep; [|discriminate].
    destruct (parse_code rest') as [c|] eqn:Hcode'; [|discriminate].
    intros _. apply parse_code_sound in Hcode' as (_ & digits & tail & -> & Hlen & Hdig & Htail).
    exists subj, (String sep ""), digits, tail. simpl.
    repeat split; try assumption. right. exists sep. split; [reflexivity|exact Hsep].
Qed.

Lemma append_nil_r x : x +:+ "" = x.
Proof. induction x as [|c x IH]; [reflexivity|]. rewrite append_cons, IH. reflexivity. Qed.

Lemma parse_complete raw :
  course_form is_separator raw -> is_Some (parse is_separator raw).
Proof.
  intros (letters & sep & digits & tail & -> & Hne & Hup & Hsep & Hlen & Hdig & Htail).
  destruct (parse_code_complete digits tail Hlen Hdig Htail) as (Hcode & c & x & Hcx & Hc).
  unfold parse. rewrite (span_upper_app _ _ Hup).
  destruct Hsep as [->|(s & -> & Hs)].
  - rewrite append_nil_l.
    rewrite Hcx, (span_upper_digit_first c x Hc), <- Hcx.
    cbn [fst snd]. rewrite append_nil_r.
    destruct (String.eqb_spec letters ""); [contradiction|].
    rewrite Hcode. eexists; reflexivity.
  - rewrite append_cons, append_nil_l.
    simpl span_upper. destruct (is_upper s) eqn:Hus.
    + rewrite Hcx, (span_upper_digit_first c x Hc), <- Hcx. cbn [fst snd].
      destruct (String.eqb_spec (letters +:+ String s "") "") as [E|_].
      { apply append_nonempty in E; [contradiction|exact Hne]. }
      rewrite Hcode. eexists; reflexivity.
    + cbn [fst snd]. rewrite append_nil_r.
      destruct (String.eqb_spec letters ""); [contradiction|].
      destruct (parse_code (String s (digits +:+ tail))); [eexists; reflexivity|].
      rewrite Hs, Hcode. eexists; reflexivity.
Qed.

End Parser.

(** ** The midterm scan and the refresh cycle *)

Section Scan.

Import Backend.

Variable is_separator : ascii -> bool.

Implicit Types (D : list string) (cs pre post : list AnnouncementCandidate)
  (key : string).

Abbreviation scan := (Backend.scan is_separator).
Abbreviation detected_after := (Backend.detected_after is_separator).
Abbreviation in_group := (Backend.in_group is_separator).

(** The four cases of one step of the scan. *)
Lemma scan_cons D c cs :
  scan D (c :: cs) =
  match parse is_separator (cand_course c) with
  | None => ((scan D cs).1, (c, UnparseableCourse) :: (scan D cs).2)
  | Some id =>
      if bool_decide (canonical id ∈ D)
      then ((scan D cs).1, (c, AlreadyDetected) :: (scan D cs).2)
      else match cand_spans c with
           | [] => ((scan D cs).1, (c, NoConcreteSpan) :: (scan D cs).2)
           | sp :: _ =>
               (midterm_event id sp :: (scan (canonical id :: D) cs).1,
                (scan (canonical id :: D) cs).2)
           end
  end.
Proof.
  simpl. destruct (parse is_separator (cand_course c)) as [id|].
  - destruct (bool_decide (canonical id ∈ D)).
    + destruct (scan D cs); reflexivity.
    + destruct (cand_spans c).
      * destruct (scan D cs); reflexivity.
      * destruct (scan (canonical id :: D) cs); reflexivity.
  - destruct (scan D cs); reflexivity.
Qed.

(** Scanning a batch in two parts. *)
Lemma scan_app D pre post :
  scan D (pre ++ post)
  = ((scan D pre).1 ++ (scan (detected_after D pre) post).1,
     (scan D pre).2 ++ (scan (detected_after D pre) post).2).
Proof.
  revert D. induction pre as [|c pre IH]; intros D.
  - simpl. destruct (scan D post); reflexivity.
  - rewrite <- app_comm_cons, !scan_cons. simpl detected_after.
    destruct (parse is_separator (cand_course c)) as [id|].
    + destruct (bool_decide (canonical id ∈ D)).
      * rewrite IH. reflexivity.
      * destruct (cand_spans c).
        -- rewrite IH. reflexivity.
        -- rewrite IH. reflexivity.
    + rewrite IH. reflexivity.
Qed.

(** No accepted event is of a course that already had its midterm, and
    no two accepted events are of the same course. *)
Lemma scan_courses_fresh D cs :
  (forall ev, ev ∈ (scan D cs).1 -> course ev ∉ D)
  /\ NoDup (map course (scan D cs).1).
Proof.
  revert D. induction cs as [|c cs IH]; intros D.
  - simpl. split; [intros ev H; apply elem_of_nil in H; contradiction|apply NoDup_nil_2].
  - rewrite scan_cons.
    destruct (parse is_separator (cand_course c)) as [id|]; [|apply IH].
    destruct (bool_decide (canonical id ∈ D)) eqn:Hin; [apply IH|].
    destruct (cand_spans c) as [|sp sps]; [apply IH|].
    apply bool_decide_eq_false in Hin.
    destruct (IH (canonical id :: D)) as [Hfresh Hnd]. simpl.
    split.
    + intros ev Hev. apply elem_of_cons in Hev as [->|Hev]; [exact Hin|].
      intros HD. apply (Hfresh ev Hev). apply list_elem_of_further, HD.
    + apply NoDup_cons. split; [|exact Hnd].
      intros Hdup. apply list_elem_of_fmap in Hdup as (ev & Hc & Hev).
      apply (Hfresh ev Hev). rewrite <- Hc. apply list_elem_of_here.
Qed.

Lemma events_of_course_app key evs1 evs2 :
  events_of_course key (evs1 ++ evs2)
  = events_of_course key evs1 ++ events_of_course key evs2.
Proof. unfold events_of_course. apply List.filter_app. Qed.

Lemma events_of_course_none key evs :
  (forall ev, ev ∈ evs -> course ev <> key) -> events_of_course key evs = [].
Proof.
  induction evs as [|ev evs IH]; intros H; [reflexivity|].
  unfold events_of_course in *. simpl.
  destruct (String.eqb_spec (course ev) key) as [E|_].
  - exfalso. apply (H ev); [apply list_elem_of_here|exact E].
  - apply IH. intros ev' Hev'. apply H, list_elem_of_further, Hev'.
Qed.

(** With one event per course, the events of a course are the one
    event accepted for it. *)
Lemma events_of_course_unique evs ev :
  NoDup (map course evs) -> ev ∈ evs -> events_of_course (course ev) evs = [ev].
Proof.
  induction evs as [|x evs IH]; intros Hnd Hin.
  - apply elem_of_nil in Hin. contradiction.
  - apply NoDup_cons in Hnd as [Hx Hnd].
    unfold events_of_course in *. simpl.
    apply elem_of_cons in Hin as [->|Hin].
    + rewrite String.eqb_refl. f_equal.
      apply events_of_course_none. intros ev' Hev' E.
      apply Hx. rewrite <- E. apply list_elem_of_fmap. exists ev'. split; [reflexivity|exact Hev'].
    + destruct (String.eqb_spec (course x) (course ev)) as [E|_].
      * exfalso. apply Hx. rewrite E. apply list_elem_of_fmap. exists ev. split; [reflexivity|exact Hin].
      * apply IH; assumption.
Qed.

Lemma superseded_cons key c r report :
  superseded is_separator key ((c, r) :: report)
  = if in_group key c && is_already_detected r
    then c :: superseded is_separator key report
    else superseded is_separator key report.
Proof.
  unfold superseded. simpl.
  destruct (in_group key c && is_already_detected r); reflexivity.
Qed.

Lemma course_group_cons key c cs :
  course_group is_separator key (c :: cs)
  = if in_group key c
    then c :: course_group is_separator key cs
    else course_group is_separator key cs.
Proof. reflexivity. Qed.

Lemma in_group_parsed key c id :
  parse is_separator (cand_course c) = Some id ->
  in_group key c = bool_decide (canonical id = key).
Proof.
  intros Hp. unfold Backend.in_group. rewrite Hp. simpl.
  apply bool_decide_ext. split; [intros E; inversion E; reflexivity|intros ->; reflexivity].
Qed.

Lemma in_group_unparsed key c :
  parse is_separator (cand_course c) = None -> in_group key c = false.
Proof.
  intros Hp. unfold Backend.in_group. rewrite Hp. reflexivity.
Qed.

(** Once a course has its midterm, the rest of the batch adds no event
    for it and reports each of its candidates as ignored. *)
Lemma scan_after_detection key D cs :
  key ∈ D ->
  events_of_course key (scan D cs).1 = []
  /\ superseded is_separator key (scan D cs).2 = course_group is_separator key cs.
Proof.
  intros HD. split.
  - apply events_of_course_none. intros ev Hev E.
    apply (proj1 (scan_courses_fresh D cs) ev Hev). rewrite E. exact HD.
  - revert D HD. induction cs as [|c cs IH]; intros D HD; [reflexivity|].
    rewrite scan_cons, course_group_cons.
    destruct (parse is_separator (cand_course c)) as [id|] eqn:Hp.
    + rewrite (in_group_parsed key c id Hp).
      destruct (bool_decide (canonical id ∈ D)) eqn:Hin.
      * cbn [fst snd]. rewrite superseded_cons, (in_group_parsed key c id Hp).
        simpl is_already_detected. rewrite andb_true_r.
        destruct (bool_decide (canonical id = key)); [f_equal|]; apply IH, HD.
      * apply bool_decide_eq_false in Hin.
        rewrite bool_decide_eq_false_2 by (intros E; subst; contradiction).
        destruct (cand_spans c) as [|sp sps]; cbn [fst snd].
        -- rewrite superseded_cons. simpl is_already_detected.
           rewrite andb_false_r. apply IH, HD.
        -- apply IH, list_elem_of_further, HD.
    + rewrite (in_group_unparsed key c Hp). cbn [fst snd].
      rewrite superseded_cons. simpl is_already_detected.
      rewrite andb_false_r. apply IH, HD.
Qed.

(** Before the first candidate of a course that has a span, the scan
    detects nothing for the course. *)
Lemma scan_before_detection key D pre :
  key ∉ D ->
  (forall b, b ∈ pre -> in_group key b = true -> cand_spans b = []) ->
  (key ∉ detected_after D pre)
  /\ events_of_course key (scan D pre).1 = []
  /\ superseded is_separator key (scan D pre).2 = [].
Proof.
  revert D. induction pre as [|c pre IH]; intros D HD Hpre.
  - simpl. repeat split; [exact HD|reflexivity..].
  - assert (Hpre' : forall b, b ∈ pre -> in_group key b = true -> cand_spans b = []).
    { intros b Hb. apply Hpre, list_elem_of_further, Hb. }
    specialize (Hpre c (list_elem_of_here _ _)).
    rewrite scan_cons. simpl detected_after.
    destruct (parse is_separator (cand_course c)) as [id|] eqn:Hp.
    + rewrite (in_group_parsed key c id Hp) in Hpre.
      destruct (bool_decide (canonical id ∈ D)) eqn:Hin.
      * apply bool_decide_eq_true in Hin.
        destruct (IH D HD Hpre') as (H1 & H2 & H3).
        split; [exact H1|]. split; [exact H2|]. cbn [fst snd].
        rewrite superseded_cons, (in_group_parsed key c id Hp).
        rewrite bool_decide_eq_false_2 by (intros E; subst; contradiction).
        exact H3.
      * destruct (cand_spans c) as [|sp sps] eqn:Hsp.
        -- destruct (IH D HD Hpre') as (H1 & H2 & H3).
           split; [exact H1|]. split; [exact H2|]. cbn [fst snd].
           rewrite superseded_cons. simpl is_already_detected.
           rewrite andb_false_r. exact H3.
        -- assert (Hne : canonical id <> key).
           { intros E. rewrite bool_decide_eq_true_2 in Hpre by exact E.
             specialize (Hpre eq_refl). discriminate. }
           assert (HD' : key ∉ canonical id :: D).
           { intros H. apply elem_of_cons in H as [E|H]; [congruence|contradiction]. }
           destruct (IH (canonical id :: D) HD' Hpre') as (H1 & H2 & H3).
           split; [exact H1|]. split; [|exact H3].
           cbn [fst snd]. unfold events_of_course in *. simpl.
           destruct (String.eqb_spec (canonical id) key); [contradiction|exact H2].
    + destruct (IH D HD Hpre') as (H1 & H2 & H3).
      split; [exact H1|]. split; [exact H2|]. cbn [fst snd].
      rewrite superseded_cons. simpl is_already_detected.
      rewrite andb_false_r. exact H3.
Qed.

(** A candidate whose course label is rejected contributes nothing to
    the accepted events and is reported. *)
Lemma scan_drops_unparseable D pre c post :
  parse is_separator (cand_course c) = None ->
  (scan D (pre ++ c :: post)).1 = (scan D (pre ++ post)).1
  /\ (c, UnparseableCourse) ∈ (scan D (pre ++ c :: post)).2.
Proof.
  intros Hc. rewrite !scan_app, scan_cons, Hc. cbn [fst snd].
  split; [reflexivity|].
  apply elem_of_app. right. apply list_elem_of_here.
Qed.

(** Every accepted event carries the parsed course of one of the
    cycle's candidates. *)
Lemma scan_event_course D cs ev :
  ev ∈ (scan D cs).1 ->
  exists c id, c ∈ cs /\ parse is_separator (cand_course c) = Some id
               /\ course ev = canonical id.
Proof.
  revert D. induction cs as [|b cs IH]; intros D.
  - intros H. apply elem_of_nil in H. contradiction.
  - assert (Hrec : forall D', ev ∈ (scan D' cs).1 ->
              exists c id, c ∈ b :: cs /\ parse is_separator (cand_course c) = Some id
                           /\ course ev = canonical id).
    { intros D' H. destruct (IH D' H) as (c & id & Hin & Hp & Hc).
      exists c, id. split; [apply list_elem_of_further, Hin|]. split; assumption. }
    rewrite scan_cons.
    destruct (parse is_separator (cand_course b)) as [id|] eqn:Hb; [|apply Hrec].
    destruct (bool_decide (canonical id ∈ D)); [apply Hrec|].
    destruct (cand_spans b) as [|sp sps]; [apply Hrec|]. cbn [fst].
    intros H. apply elem_of_cons in H as [->|H]; [|apply (Hrec _ H)].
    exists b, id. split; [apply list_elem_of_here|]. split; [exact Hb|reflexivity].
Qed.

Lemma superseded_app key r1 r2 :
  superseded is_separator key (r1 ++ r2)
  = superseded is_separator key r1 ++ superseded is_separator key r2.
Proof. unfold superseded. rewrite List.filter_app, map_app. reflexivity. Qed.

Lemma superseded_elem key report b :
  b ∈ superseded is_separator key report -> (b, AlreadyDetected) ∈ report.
Proof.
  unfold superseded. intros H.
  apply list_elem_of_fmap in H as ([b' r] & -> & H).
  apply list_elem_of_In, filter_In in H as [Hin Hf]. simpl in *.
  apply andb_true_iff in Hf as [_ Hr]. destruct r; try discriminate.
  apply list_elem_of_In, Hin.
Qed.

Lemma stored_midterms_cycle cs s st :
  stored_midterms (midterm_cycle is_separator cs s st).2
  = announcements is_separator cs.
Proof.
  unfold midterm_cycle, MidtermPage.reparse, stored_midterms. simpl.
  rewrite storageSet_lookup_same. reflexivity.
Qed.

End Scan.

(** C4. The parser accepts exactly the strings
    [<letters><separator?><3 digits><optional letter>]; with the space
    as a separator ["CPEN 221"] is accepted, ["MATH253"] is accepted and
    ["Intro to Programming"] is rejected; a candidate whose course label
    is rejected is dropped from the cycle (the accepted events are those
    of the batch without it, it is reported, and no accepted event has a
    course other than a parsed one). *)
Theorem parse_accepts_exactly_course_form (is_separator : ascii -> bool) :
  is_separator " "%char = true ->
  (forall raw, is_Some (Backend.parse is_separator raw)
               <-> Backend.course_form is_separator raw)
  /\ Backend.parse is_separator "CPEN 221" = Some (Backend.mkCourse "CPEN" "221")
  /\ Backend.parse is_separator "MATH253" = Some (Backend.mkCourse "MATH" "253")
  /\ Backend.parse is_separator "Intro to Programming" = None
  /\ (forall pre c post,
        Backend.parse is_separator (Backend.cand_course c) = None ->
        Backend.announcements is_separator (pre ++ c :: post)
        = Backend.announcements is_separator (pre ++ post)
        /\ (c, Backend.UnparseableCourse)
             ∈ Backend.rejection_report is_separator (pre ++ c :: post))
  /\ (forall cs ev,
        ev ∈ Backend.announcements is_separator cs ->
        exists c id, c ∈ cs
          /\ Backend.parse is_separator (Backend.cand_course c) = Some id
          /\ course ev = Backend.canonical id).
Proof.
  intros Hspace.
  split.
  { intros raw. split.
    - intros [id Hid]. eapply parse_sound, Hid.
    - apply parse_complete. }
  split.
  { unfold Backend.parse. simpl. rewrite Hspace. reflexivity. }
  split; [reflexivity|].
  split.
  { unfold Backend.parse. simpl. destruct (is_separator "n"%char); reflexivity. }
  split.
  { intros pre c post Hc. apply scan_drops_unparseable, Hc. }
  intros cs ev. apply scan_event_course.
Qed.

Lemma parse_with_space_separator :
  let is_separator := Ascii.eqb " "%char in
  Backend.parse is_separator "CPEN 221" = Some (Backend.mkCourse "CPEN" "221")
  /\ Backend.parse is_separator "CPEN221" = Some (Backend.mkCourse "CPEN" "221")
  /\ Backend.parse is_separator "Intro to Programming" = None.
Proof.
  intros is_separator.
  destruct (parse_accepts_exactly_course_form is_separator eq_refl)
    as (_ & H1 & _ & H3 & _).
  split; [exact H1|]. split; [reflexivity|exact H3].
Defined.

(** C2. In one cycle, the first candidate of a course (in the order
    supplied) that has a concrete span is the one accepted: its event
    is the only event of the course the server answers with and the
    only one in the store after the cycle, and the candidates of the
    course that follow it are exactly those the report lists as ignored
    for that course. *)
Theorem first_candidate_of_course_wins
    (is_separator : ascii -> bool)
    (pre post : list Backend.AnnouncementCandidate)
    (a : Backend.AnnouncementCandidate)
    (id : Backend.CourseIdentifier) (sp : Backend.Span) (sps : list Backend.Span)
    (s : MidtermPage.state) (st : gmap string stored) :
  Backend.parse is_separator (Backend.cand_course a) = Some id ->
  Backend.cand_spans a = sp :: sps ->
  (forall b, b ∈ pre ->
     Backend.in_group is_separator (Backend.canonical id) b = true ->
     Backend.cand_spans b = []) ->
  let key := Backend.canonical id in
  let cs := pre ++ a :: post in
  events_of_course key (Backend.announcements is_separator cs)
    = [Backend.midterm_event id sp]
  /\ events_of_course key (stored_midterms (midterm_cycle is_separator cs s st).2)
    = [Backend.midterm_event id sp]
  /\ Backend.superseded is_separator key (Backend.rejection_report is_separator cs)
    = Backend.course_group is_separator key post
  /\ (forall b, b ∈ post -> Backend.in_group is_separator key b = true ->
        (b, Backend.AlreadyDetected) ∈ Backend.rejection_report is_separator cs).
Proof.
  intros Hp Hsp Hpre key cs.
  assert (Hnil : key ∉ @nil string) by apply not_elem_of_nil.
  destruct (scan_before_detection is_separator key [] pre Hnil Hpre) as (HD & Hev1 & Hrej1).
  set (D := Backend.detected_after is_separator [] pre) in *.
  assert (Hkey : key ∈ key :: D) by apply list_elem_of_here.
  destruct (scan_after_detection is_separator key (key :: D) post Hkey) as (Hev2 & Hrej2).
  assert (Hscan : Backend.scan is_separator [] cs
                  = ((Backend.scan is_separator [] pre).1
                       ++ Backend.midterm_event id sp
                            :: (Backend.scan is_separator (key :: D) post).1,
                     (Backend.scan is_separator [] pre).2
                       ++ (Backend.scan is_separator (key :: D) post).2)).
  { unfold cs. rewrite scan_app, scan_cons, Hp. fold D. fold key.
    rewrite bool_decide_eq_false_2 by exact HD. rewrite Hsp. reflexivity. }
  assert (Hevents : events_of_course key (Backend.announcements is_separator cs)
                    = [Backend.midterm_event id sp]).
  { unfold Backend.announcements. rewrite Hscan. cbn [fst].
    rewrite events_of_course_app, Hev1. cbn [app].
    assert (Hhead : forall evs,
              events_of_course key (Backend.midterm_event id sp :: evs)
              = Backend.midterm_event id sp :: events_of_course key evs).
    { intros evs. unfold events_of_course. cbn [List.filter].
      change (course (Backend.midterm_event id sp)) with key.
      rewrite String.eqb_refl. reflexivity. }
    rewrite Hhead, Hev2. reflexivity. }
  assert (Hrep : Backend.superseded is_separator key (Backend.rejection_report is_separator cs)
                 = Backend.course_group is_separator key post).
  { unfold Backend.rejection_report. rewrite Hscan. cbn [snd].
    rewrite superseded_app, Hrej1, Hrej2. reflexivity. }
  split; [exact Hevents|].
  split; [rewrite stored_midterms_cycle; exact Hevents|].
  split; [exact Hrep|].
  intros b Hb Hg. apply (superseded_elem is_separator key). rewrite Hrep.
  unfold Backend.course_group. apply list_elem_of_In, filter_In.
  split; [apply list_elem_of_In, Hb|exact Hg].
Qed.

Lemma first_of_two_same_course_candidates :
  let is_separator := Ascii.eqb " "%char in
  let other := Backend.mkCandidate "CPEN 221" "Midterm on Oct 20" 100
                 [Backend.mkSpan "2025/10/20" "18:00:00" "19:30:00"] in
  let first := Backend.mkCandidate "MATH 253" "Midterm moved to Oct 15" 90
                 [Backend.mkSpan "2025/10/15" "12:00:00" "13:00:00"] in
  let second := Backend.mkCandidate "MATH253" "Midterm 2 on Nov 12" 80
                  [Backend.mkSpan "2025/11/12" "12:00:00" "13:00:00"] in
  let cs := [other] ++ first :: [second] in
  events_of_course "MATH 253" (Backend.announcements is_separator cs)
    = [mkEvent "MATH 253" "midterm" "2025/10/15" "12:00:00" "13:00:00" None]
  /\ (second, Backend.AlreadyDetected) ∈ Backend.rejection_report is_separator cs.
Proof.
  intros is_separator other first second cs.
  destruct (first_candidate_of_course_wins is_separator [other] [second] first
              (Backend.mkCourse "MATH" "253")
              (Backend.mkSpan "2025/10/15" "12:00:00" "13:00:00") []
              (MidtermPage.load ∅) ∅) as (H1 & _ & _ & H4).
  - reflexivity.
  - reflexivity.
  - intros b Hb Hg. apply list_elem_of_singleton in Hb. subst b.
    vm_compute in Hg. discriminate.
  - split; [exact H1|]. apply H4; [apply list_elem_of_here|reflexivity].
Defined.

Lemma parse_MATH_253 (is_separator : ascii -> bool) :
  is_separator " "%char = true ->
  Backend.parse is_separator "MATH 253" = Some (Backend.mkCourse "MATH" "253").
Proof. intros Hspace. unfold Backend.parse. simpl. rewrite Hspace. reflexivity. Qed.

Lemma course_midterm_event id sp :
  course (Backend.midterm_event id sp) = Backend.canonical id.
Proof. reflexivity. Qed.

(** C1. Whatever midterms the store held, after a refresh cycle in which
    an event is accepted for a course the store holds exactly one
    midterm event of that course, the accepted one; it stands in place
    of whatever was stored for the course, not beside it.  For
    MATH 253, a cycle accepting 2025/10/15 followed by a cycle
    accepting 2025/10/22 leaves the one event dated 2025/10/22. *)
Theorem midterm_refresh_replaces (is_separator : ascii -> bool) :
  (forall cs s st id sp,
     Backend.midterm_event id sp ∈ Backend.announcements is_separator cs ->
     let st' := (midterm_cycle is_separator cs s st).2 in
     events_of_course (Backend.canonical id) (stored_midterms st')
       = [Backend.midterm_event id sp]
     /\ length (events_of_course (Backend.canonical id) (stored_midterms st')) = 1%nat)
  /\ (is_separator " "%char = true ->
      forall s0 st0,
        let A := Backend.mkCandidate "MATH 253" "Midterm on Oct 15" 1
                   [Backend.mkSpan "2025/10/15" "12:00:00" "13:00:00"] in
        let B := Backend.mkCandidate "MATH 253" "Midterm moved to Oct 22" 2
                   [Backend.mkSpan "2025/10/22" "12:00:00" "13:00:00"] in
        let '(s1, st1) := midterm_cycle is_separator [A] s0 st0 in
        let '(s2, st2) := midterm_cycle is_separator [B] s1 st1 in
        events_of_course "MATH 253" (stored_midterms st1)
          = [mkEvent "MATH 253" "midterm" "2025/10/15" "12:00:00" "13:00:00" None]
        /\ events_of_course "MATH 253" (stored_midterms st2)
          = [mkEvent "MATH 253" "midterm" "2025/10/22" "12:00:00" "13:00:00" None]).
Proof.
  assert (Hmain : forall cs s st id sp,
     Backend.midterm_event id sp ∈ Backend.announcements is_separator cs ->
     events_of_course (Backend.canonical id)
       (stored_midterms (midterm_cycle is_separator cs s st).2)
     = [Backend.midterm_event id sp]).
  { intros cs s st id sp Hin.
    rewrite stored_midterms_cycle, <- (course_midterm_event id sp).
    apply events_of_course_unique; [|exact Hin].
    apply (scan_courses_fresh is_separator [] cs). }
  split.
  - intros cs s st id sp Hin st'. unfold st'.
    rewrite (Hmain cs s st id sp Hin). split; reflexivity.
  - intros Hspace s0 st0 A B.
    assert (Hone : forall c sp,
              Backend.cand_course c = "MATH 253" -> Backend.cand_spans c = [sp] ->
              Backend.announcements is_separator [c]
              = [Backend.midterm_event (Backend.mkCourse "MATH" "253") sp]).
    { intros c sp Hc Hs. unfold Backend.announcements.
      rewrite scan_cons, Hc, (parse_MATH_253 is_separator Hspace), Hs.
      rewrite bool_decide_eq_false_2 by apply not_elem_of_nil. reflexivity. }
    pose proof (Hmain [A] s0 st0 (Backend.mkCourse "MATH" "253")
                  (Backend.mkSpan "2025/10/15" "12:00:00" "13:00:00")) as H1.
    destruct (midterm_cycle is_separator [A] s0 st0) as [s1 st1].
    pose proof (Hmain [B] s1 st1 (Backend.mkCourse "MATH" "253")
                  (Backend.mkSpan "2025/10/22" "12:00:00" "13:00:00")) as H2.
    destruct (midterm_cycle is_separator [B] s1 st1) as [s2 st2].
    split.
    + apply H1. rewrite (Hone A _ eq_refl eq_refl). apply list_elem_of_here.
    + apply H2. rewrite (Hone B _ eq_refl eq_refl). apply list_elem_of_here.
Qed.

Lemma midterm_replaced_in_nonempty_store :
  let is_separator := Ascii.eqb " "%char in
  let prior : gmap string stored := {[ "midterms" := Events info ]} in
  let B := Backend.mkCandidate "MATH 253" "Midterm moved to Oct 22" 2
             [Backend.mkSpan "2025/10/22" "12:00:00" "13:00:00"] in
  events_of_course "MATH 253" (stored_midterms prior) = info
  /\ events_of_course "MATH 253"
       (stored_midterms (midterm_cycle is_separator [B] (MidtermPage.load prior) prior).2)
     = [mkEvent "MATH 253" "midterm" "2025/10/22" "12:00:00" "13:00:00" None].
Proof.
  intros is_separator prior B.
  split; [reflexivity|].
  apply (proj1 (midterm_refresh_replaces is_separator) [B] (MidtermPage.load prior) prior
           (Backend.mkCourse "MATH" "253")
           (Backend.mkSpan "2025/10/22" "12:00:00" "13:00:00")).
  apply list_elem_of_here.
Defined.

(** ** Recurrence expansion *)

Section Expansion.

Import Recurrence.

Implicit Types (r : RecurrenceRule) (d base : Z) (n : nat) (W : list weekday).

Lemma week_from_elem base d :
  d ∈ week_from base <-> (base <= d <= base + 6)%Z.
Proof.
  unfold week_from. simpl. rewrite !elem_of_cons, elem_of_nil. lia.
Qed.

Lemma week_from_sorted base : StronglySorted Z.lt (week_from base).
Proof.
  unfold week_from. simpl.
  repeat (apply SSorted_cons; [|repeat (apply Forall_cons; split; [lia|]); apply Forall_nil_2]).
  apply SSorted_nil.
Qed.

Lemma weekday_of_shift d k : weekday_of (d + 7 * k) = weekday_of d.
Proof.
  unfold weekday_of. replace (d + 7 * k)%Z with (d + k * 7)%Z by lia.
  rewrite Z_mod_plus_full. reflexivity.
Qed.

(** The weekdays of seven consecutive days are the seven weekdays. *)
Lemma week_from_weekdays base :
  NoDup (weekday_of <$> week_from base)
  /\ forall w, w ∈ weekday_of <$> week_from base.
Proof.
  assert (Hr : (0 <= base mod 7 < 7)%Z) by (apply Z.mod_pos_bound; lia).
  assert (Hw : forall j, weekday_of (base + j) = weekday_of (base mod 7 + j)).
  { intros j. unfold weekday_of. f_equal.
    rewrite (Z.add_mod base j 7), (Z.add_mod (base mod 7) j 7) by lia.
    rewrite Z.mod_mod by lia. reflexivity. }
  unfold week_from. simpl. rewrite !Hw.
  assert (Hcases : (base mod 7 = 0 \/ base mod 7 = 1 \/ base mod 7 = 2 \/ base mod 7 = 3
                    \/ base mod 7 = 4 \/ base mod 7 = 5 \/ base mod 7 = 6)%Z) by lia.
  destruct Hcases as [E|[E|[E|[E|[E|[E|E]]]]]]; rewrite E; simpl;
    (split; [compute_done|intros []; compute_done]).
Qed.

Lemma weekday_filter_length W (l : list Z) :
  length (filter (fun d => weekday_of d ∈ W) l)
  = length (filter (fun w => w ∈ W) (weekday_of <$> l)).
Proof.
  induction l as [|x l IH]; [reflexivity|].
  rewrite fmap_cons, !filter_cons.
  destruct (decide (weekday_of x ∈ W)); simpl; rewrite IH; reflexivity.
Qed.

(** A step has one emitted day per weekday of the set. *)
Lemma week_count W base :
  NoDup W ->
  length (filter (fun d => weekday_of d ∈ W) (week_from base)) = length W.
Proof.
  intros HW.
  rewrite weekday_filter_length.
  destruct (week_from_weekdays base) as [Hnd Hall].
  apply Permutation_length, NoDup_Permutation.
  - apply NoDup_filter, Hnd.
  - exact HW.
  - intros w. rewrite list_elem_of_filter. split; [tauto|].
    intros Hw. split; [exact Hw|apply Hall].
Qed.

Lemma filter_complement_length {A} (P : A -> Prop) `{!forall x, Decision (P x)}
    (l : list A) :
  (length (filter P l) + length (filter (fun x => ~ P x) l) = length l)%nat.
Proof.
  induction l as [|x l IH]; [reflexivity|].
  rewrite !filter_cons. destruct (decide (P x)), (decide (~ P x)); simpl; try tauto; lia.
Qed.

(** Every emitted day is an occurrence. *)
Lemma expand_steps_occurs n base r date_from date_to d :
  d ∈ expand_steps n base r date_from date_to -> occurs r date_from date_to d.
Proof.
  revert base. induction n as [|n IH]; intros base; simpl.
  - intros H. apply elem_of_nil in H. contradiction.
  - rewrite elem_of_app, list_elem_of_filter. intros [[H _]|H]; [exact H|eapply IH, H].
Qed.

(** The days of [n] steps lie within [n] intervals from the first step. *)
Lemma expand_steps_bounds n base r date_from date_to d :
  (1 <= interval r)%Z ->
  d ∈ expand_steps n base r date_from date_to ->
  (base <= d < base + 7 * interval r * Z.of_nat n)%Z.
Proof.
  intros HI. revert base. induction n as [|n IH]; intros base; simpl expand_steps.
  - intros H. apply elem_of_nil in H. contradiction.
  - rewrite elem_of_app, list_elem_of_filter, week_from_elem.
    intros [[_ H]|H]; [nia|]. apply IH in H. nia.
Qed.

Lemma filter_sorted {A} (R : relation A) (P : A -> Prop)
    `{!forall x, Decision (P x)} (l : list A) :
  StronglySorted R l -> StronglySorted R (filter P l).
Proof.
  induction 1 as [|x l Hl IH Hx]; [apply SSorted_nil|].
  rewrite filter_cons. destruct (decide (P x)); [|exact IH].
  apply SSorted_cons; [exact IH|].
  apply Forall_forall. intros y Hy. apply list_elem_of_filter in Hy as [_ Hy].
  eapply Forall_forall in Hx; eassumption.
Qed.

Lemma expand_steps_sorted n base r date_from date_to :
  (1 <= interval r)%Z ->
  StronglySorted Z.lt (expand_steps n base r date_from date_to).
Proof.
  intros HI. revert base. induction n as [|n IH]; intros base; simpl.
  - apply SSorted_nil.
  - apply StronglySorted_app_2.
    + intros x y Hx Hy. apply list_elem_of_filter in Hx as [_ Hx].
      apply week_from_elem in Hx.
      apply (expand_steps_bounds _ _ _ _ _ _ HI) in Hy. lia.
    + apply filter_sorted, week_from_sorted.
    + apply IH.
Qed.

(** Exception dates only remove days from the expansion of the rule
    without them. *)
Lemma expand_steps_exceptions n base r date_from date_to :
  expand_steps n base r date_from date_to
  = filter (fun d => d ∉ exception_dates r)
      (expand_steps n base (without_exceptions r) date_from date_to).
Proof.
  revert base. induction n as [|n IH]; intros base; [reflexivity|].
  simpl expand_steps. rewrite filter_app, <- IH. f_equal.
  rewrite list_filter_filter. apply list_filter_iff.
  intros d. unfold occurs. simpl. rewrite elem_of_nil. tauto.
Qed.

Lemma filter_iff_elem {A} (P1 P2 : A -> Prop)
    `{!forall x, Decision (P1 x), !forall x, Decision (P2 x)} (l : list A) :
  (forall x, x ∈ l -> P1 x <-> P2 x) -> filter P1 l = filter P2 l.
Proof.
  induction l as [|x l IH]; intros Hiff; [reflexivity|].
  rewrite !filter_cons.
  pose proof (Hiff x (list_elem_of_here _ _)) as Hx.
  rewrite IH by (intros y Hy; apply Hiff, list_elem_of_further, Hy).
  destruct (decide (P1 x)), (decide (P2 x)); tauto.
Qed.

(** Steps that lie inside the window emit [|W|] days each. *)
Lemma expand_steps_inside_count n base r date_from date_to :
  (1 <= interval r)%Z -> NoDup (by_day r) ->
  (date_from <= base)%Z ->
  (base + 7 * interval r * Z.of_nat n + 6 < date_to + 7 * interval r)%Z ->
  length (expand_steps n base (without_exceptions r) date_from date_to)
  = (n * length (by_day r))%nat.
Proof.
  intros HI HW. revert base. induction n as [|n IH]; intros base Hfrom Hto; [reflexivity|].
  simpl expand_steps. rewrite length_app, IH by nia.
  simpl. f_equal. rewrite <- (week_count (by_day r) base HW). f_equal.
  apply filter_iff_elem. intros d Hd. apply week_from_elem in Hd.
  unfold occurs. simpl. rewrite elem_of_nil. split; [tauto|].
  intros Hw. repeat split; [exact Hw|tauto|lia|nia].
Qed.

(** A window of ten intervals from the anchor takes ten steps. *)
Lemma steps_until_ten r :
  (1 <= interval r)%Z ->
  steps_until r (anchor r + 10 * interval r * 7) = 10%nat.
Proof.
  intros HI. unfold steps_until.
  destruct (Z.leb_spec (anchor r + 10 * interval r * 7) (anchor r)); [lia|].
  assert (Hq : ((anchor r + 10 * interval r * 7 - 1 - anchor r) / (7 * interval r) = 9)%Z).
  { symmetry. apply (Z.div_unique _ _ 9 (7 * interval r - 1)); lia. }
  rewrite Hq. reflexivity.
Qed.

Lemma sorted_NoDup (l : list Z) : StronglySorted Z.lt l -> NoDup l.
Proof.
  induction 1 as [|x l Hl IH Hx]; [apply NoDup_nil_2|].
  apply NoDup_cons. split; [|exact IH].
  intros Hin. eapply Forall_forall in Hx; [|exact Hin]. lia.
Qed.

(** When each exception date is an occurrence, the occurrences that are
    exception dates are as many as the exception dates. *)
Lemma excluded_count (exc occ : list Z) :
  NoDup exc -> NoDup occ -> (forall x, x ∈ exc -> x ∈ occ) ->
  length (filter (fun d => d ∈ exc) occ) = length exc.
Proof.
  intros Hexc Hocc Hsub. apply Permutation_length, NoDup_Permutation.
  - apply NoDup_filter, Hocc.
  - exact Hexc.
  - intros x. rewrite list_elem_of_filter. split; [tauto|].
    intros Hx. split; [exact Hx|apply Hsub, Hx].
Qed.

End Expansion.

(** C5. For a valid rule, expanding over the window from the anchor to
    ten intervals later yields exactly 10 x |W| dates minus the excluded
    exception dates (minus the number of exception dates, when these are
    distinct occurrences); every date yielded is in the window, on a
    weekday of W and no exception date, and the dates are strictly
    increasing. *)
Theorem expand_ten_intervals (r : Recurrence.RecurrenceRule) :
  Recurrence.valid_rule r ->
  let start := Recurrence.anchor r in
  let stop := (start + 10 * Recurrence.interval r * 7)%Z in
  let W := Recurrence.by_day r in
  exists occ ds,
    Recurrence.expand (Recurrence.without_exceptions r) start stop = Some occ
    /\ Recurrence.expand r start stop = Some ds
    /\ ds = filter (fun d => d ∉ Recurrence.exception_dates r) occ
    /\ length occ = (10 * length W)%nat
    /\ length ds
       = (10 * length W
          - length (filter (fun d => d ∈ Recurrence.exception_dates r) occ))%nat
    /\ (NoDup (Recurrence.exception_dates r) ->
        (forall x, x ∈ Recurrence.exception_dates r -> x ∈ occ) ->
        length ds = (10 * length W - length (Recurrence.exception_dates r))%nat)
    /\ (forall d, d ∈ ds ->
          Recurrence.weekday_of d ∈ W /\ (start <= d < stop)%Z
          /\ d ∉ Recurrence.exception_dates r)
    /\ StronglySorted Z.lt ds.
Proof.
  intros Hvalid start stop W.
  pose proof Hvalid as (HI & Hne & HW).
  set (r0 := Recurrence.without_exceptions r).
  assert (Hvalid0 : Recurrence.valid_rule r0) by exact Hvalid.
  set (occ := Recurrence.expand_steps 10 start r0 start stop).
  assert (Hsteps0 : Recurrence.steps_until r0 stop = 10%nat)
    by apply (steps_until_ten r0 HI).
  assert (Hsteps : Recurrence.steps_until r stop = 10%nat)
    by apply (steps_until_ten r HI).
  assert (Hocc : length occ = (10 * length W)%nat).
  { apply expand_steps_inside_count; [exact HI|exact HW|lia|unfold stop; lia]. }
  assert (Hsplit : (length (filter (fun d => d ∉ Recurrence.exception_dates r) occ)
                    + length (filter (fun d => d ∈ Recurrence.exception_dates r) occ)
                    = length occ)%nat).
  { rewrite Nat.add_comm.
    apply (filter_complement_length (fun d => d ∈ Recurrence.exception_dates r)). }
  assert (Hsorted : StronglySorted Z.lt occ) by apply expand_steps_sorted, HI.
  exists occ, (filter (fun d => d ∉ Recurrence.exception_dates r) occ).
  split.
  { unfold Recurrence.expand. destruct (decide (Recurrence.valid_rule r0)); [|contradiction].
    rewrite Hsteps0. reflexivity. }
  split.
  { unfold Recurrence.expand. destruct (decide (Recurrence.valid_rule r)); [|contradiction].
    rewrite Hsteps, expand_steps_exceptions. reflexivity. }
  split; [reflexivity|].
  split; [exact Hocc|].
  split; [lia|].
  split.
  { intros Hnd Hsub.
    rewrite (excluded_count _ occ Hnd (sorted_NoDup occ Hsorted) Hsub) in Hsplit. lia. }
  split.
  { intros d Hd. apply list_elem_of_filter in Hd as [Hex Hd].
    apply expand_steps_occurs in Hd as (Hw & _ & Hfrom & Hto).
    repeat split; assumption. }
  apply filter_sorted, Hsorted.
Qed.

Lemma expand_biweekly_tuesday_thursday :
  let r := Recurrence.mkRule 1 2 [Recurrence.TU; Recurrence.TH] [15%Z] in
  Recurrence.valid_rule r
  /\ exists occ ds,
       Recurrence.expand r 1 141 = Some ds
       /\ ds = filter (fun d => d ∉ [15%Z]) occ
       /\ length occ = 20%nat
       /\ length ds = 19%nat.
Proof.
  intros r.
  assert (Hvalid : Recurrence.valid_rule r) by compute_done.
  split; [exact Hvalid|].
  destruct (expand_ten_intervals r Hvalid) as (occ & ds & H0 & H1 & H2 & H3 & _ & H5 & _).
  exists occ, ds. split; [exact H1|]. split; [exact H2|].
  split; [exact H3|].
  apply H5.
  - compute_done.
  - intros x Hx. apply list_elem_of_singleton in Hx. subst x.
    vm_compute in H0. injection H0 as <-. compute_done.
Defined.

(** ** Further properties of the pages *)

(** X1. From a stored class list without empty slots, every state the
    popup can reach keeps the list free of empty slots, and the edit
    index, whenever it is set, points at an existing entry while the form
    is shown: [handleSave] never writes past the end of the list. *)
Theorem editing_index_stays_in_range
    (st : gmap string stored) (gs : list Popup.gesture) :
  (forall l, st !! "classData" = Some (Classes l) -> Forall is_Some l) ->
  let p := Popup.page (Popup.run gs (Popup.start st)) in
  Forall is_Some (ClasstimePage.classes p)
  /\ (forall i, ClasstimePage.editingIndex p = Some i ->
        (i < length (ClasstimePage.classes p))%nat
        /\ ClasstimePage.showInput p = true).
Proof.
  intros Hst p.
  destruct (run_index_ok gs _ (start_index_ok st Hst)) as [Hall Hidx].
  fold p in Hall, Hidx.
  split; [exact Hall|].
  intros i Hi. rewrite Hi in Hidx. exact Hidx.
Qed.

Lemma editing_second_of_two_classes :
  let c name := Some (Classtime.mkClass name (Classtime.toggle Classtime.dF Classtime.no_days)
                        "10:00 AM" "11:00 AM") in
  let st : gmap string stored := {[ "classData" := Classes [c "CPEN 221"; c "MATH 253"] ]} in
  let p := Popup.page (Popup.run [Popup.ClickEdit 1] (Popup.start st)) in
  ClasstimePage.editingIndex p = Some 1%nat
  /\ (1 < length (ClasstimePage.classes p))%nat.
Proof.
  intros c st p.
  split; [reflexivity|].
  apply (proj2 (editing_index_stays_in_range st [Popup.ClickEdit 1]
                  ltac:(intros l Hl; vm_compute in Hl; inversion Hl; subst;
                        repeat constructor; eexists; reflexivity)) 1%nat).
  reflexivity.
Defined.

(** ** Time labels over the whole day *)

Section Labels.

Import Classtime.

(** One turn of the loop pushes [timeLabel hour minute]. *)
Lemma generateTimes_loop_turn fuel hour minute times :
  ((hour <? 21) || ((hour =? 21) && (minute =? 0)))%Z = true ->
  generateTimes_loop (S fuel) hour minute times
  = if (minute + 30 =? 60)%Z
    then generateTimes_loop fuel (hour + 1)%Z 0%Z (times ++ [timeLabel hour minute])
    else generateTimes_loop fuel hour (minute + 30)%Z (times ++ [timeLabel hour minute]).
Proof. intros Hguard. simpl. rewrite Hguard. reflexivity. Qed.

Lemma timeLabel_table :
  forallb (fun h =>
    forallb (fun m =>
      match timeToMinutes (timeLabel (Z.of_nat h) (Z.of_nat m)) with
      | Js.Num z => (z =? Z.of_nat h * 60 + Z.of_nat m)%Z
      | _ => false
      end) (seq 0 60)) (seq 0 24) = true.
Proof. vm_compute. reflexivity. Qed.

Lemma validEndTimes_table :
  forallb (fun k =>
    match allTimes !! k with
    | Some t => bool_decide (validEndTimes t = drop (S k) allTimes)
    | None => true
    end) (seq 0 27) = true.
Proof. vm_compute. reflexivity. Qed.

Lemma validEndTimes_drop k t :
  allTimes !! k = Some t -> validEndTimes t = drop (S k) allTimes.
Proof.
  intros Hk.
  assert (Hlt : (k < 27)%nat) by (apply allTimes_lookup_minutes in Hk; tauto).
  pose proof validEndTimes_table as Htab.
  rewrite forallb_forall in Htab.
  specialize (Htab k ltac:(apply in_seq; lia)).
  rewrite Hk in Htab. apply bool_decide_eq_true in Htab. exact Htab.
Qed.

Lemma allTimes_NoDup : NoDup allTimes.
Proof. refine (bool_decide_unpack _ _). vm_compute. reflexivity. Qed.

End Labels.

(** X2. [timeToMinutes] reads back every label the loop of
    [generateTimes] can write: for each hour 0..23 and minute 0..59 the
    label built by the loop's template denotes minute [hour * 60 +
    minute] of the day (midnight is ["0:00 AM"], noon ["12:00 PM"]). *)
Theorem timeToMinutes_reads_timeLabel (hour minute : Z) :
  (0 <= hour <= 23)%Z -> (0 <= minute <= 59)%Z ->
  Classtime.timeToMinutes (timeLabel hour minute) = Js.Num (hour * 60 + minute).
Proof.
  intros Hh Hm.
  pose proof timeLabel_table as Htab.
  rewrite forallb_forall in Htab.
  specialize (Htab (Z.to_nat hour) ltac:(apply in_seq; lia)).
  rewrite forallb_forall in Htab.
  specialize (Htab (Z.to_nat minute) ltac:(apply in_seq; lia)).
  rewrite !Z2Nat.id in Htab by lia.
  destruct (Classtime.timeToMinutes (timeLabel hour minute)) as [| |z]; try discriminate.
  apply Z.eqb_eq in Htab. congruence.
Qed.

Lemma timeToMinutes_reads_quarter_past_noon :
  timeLabel 12 15 = "12:15 PM"
  /\ Classtime.timeToMinutes (timeLabel 12 15) = Js.Num 735.
Proof.
  split; [reflexivity|].
  apply (timeToMinutes_reads_timeLabel 12 15); lia.
Defined.

(** X3. The end-time options offered for the k-th start label are
    exactly the labels after it, in order: 26 - k of them, and none for
    the last start label, 9:00 PM; with no start chosen the end list is
    the whole list. *)
Theorem validEndTimes_are_later_labels (k : nat) (t : string) :
  Classtime.allTimes !! k = Some t ->
  Classtime.validEndTimes t = drop (S k) Classtime.allTimes
  /\ length (Classtime.validEndTimes t) = (26 - k)%nat
  /\ (Classtime.validEndTimes t = [] <-> t = "9:00 PM")
  /\ Classtime.validEndTimes "" = Classtime.allTimes.
Proof.
  intros Hk.
  pose proof (validEndTimes_drop k t Hk) as Hdrop.
  assert (Hlen : length Classtime.allTimes = 27%nat) by reflexivity.
  assert (Hlt : (k < 27)%nat) by (rewrite <- Hlen; eapply lookup_lt_Some, Hk).
  split; [exact Hdrop|].
  split; [rewrite Hdrop, length_drop, Hlen; lia|].
  split; [|reflexivity].
  rewrite Hdrop. split.
  - intros Hnil.
    assert (Hk26 : k = 26%nat).
    { apply (f_equal length) in Hnil. rewrite length_drop, Hlen in Hnil. simpl in Hnil. lia. }
    subst k. vm_compute in Hk. congruence.
  - intros ->.
    assert (H26 : Classtime.allTimes !! 26%nat = Some "9:00 PM") by reflexivity.
    assert (k = 26%nat) as ->.
    { eapply NoDup_lookup; [apply allTimes_NoDup|exact Hk|exact H26]. }
    reflexivity.
Qed.

Lemma validEndTimes_after_half_past_eight_pm :
  Classtime.validEndTimes "8:30 PM" = ["9:00 PM"]
  /\ length (Classtime.validEndTimes "8:30 PM") = 1%nat.
Proof.
  destruct (validEndTimes_are_later_labels 25 "8:30 PM" eq_refl) as (H1 & H2 & _).
  split; [rewrite H1; reflexivity|exact H2].
Defined.

(** ** Invariants of the popup, by schema *)

Section PopupSchema.

Variables (P : option Classtime.ClassObj -> Prop) (Q : Classtime.ClassObj -> Prop).

Hypothesis P_empty : P None.
Hypothesis Q_blank : Q Classtime.blank.
Hypothesis Q_mount : forall c, P (Some c) -> Q c.
Hypothesis Q_edit : forall e f, Q f -> Q (Classtime.apply_edit e f).
Hypothesis P_submit : forall f, Q f -> Classtime.isValid f = true -> P (Some f).

Lemma schema_show visible p f :
  Forall P (ClasstimePage.classes p) -> Q f -> Q (Popup.show visible p f).
Proof.
  intros Hl Hf. unfold Popup.show.
  destruct (ClasstimePage.showInput p && negb visible); [|exact Hf].
  unfold ClasstimePage.initialData.
  destruct (ClasstimePage.editingIndex p) as [i|]; [|exact Q_blank].
  destruct (ClasstimePage.classes p !! i) as [[c|]|] eqn:Hi; simpl;
    try exact Q_blank.
  apply Q_mount. eapply Forall_lookup_1; eassumption.
Qed.

Lemma schema_stored l st :
  Forall P l ->
  forall l', storageSet {[ "classData" := Classes l ]} st !! "classData" = Some (Classes l') ->
             Forall P l'.
Proof.
  intros Hl l' Hl'. rewrite storageSet_lookup_same in Hl'.
  inversion Hl'; subst. exact Hl.
Qed.

Lemma schema_start st :
  (forall l, st !! "classData" = Some (Classes l) -> Forall P l) ->
  popup_inv P Q (Popup.start st).
Proof.
  intros Hst. unfold popup_inv, Popup.start. simpl.
  split; [|split; [exact Q_blank|exact Hst]].
  unfold ClasstimePage.load.
  destruct (st !! "classData") as [[l| | | | |]|] eqn:Hk; simpl;
    try apply Forall_nil_2.
  apply Hst. reflexivity.
Qed.

Lemma schema_step g a : popup_inv P Q a -> popup_inv P Q (Popup.step g a).
Proof.
  intros Ha. pose proof Ha as (Hl & Hf & Hst). unfold Popup.step.
  destruct g as [e| |index|index|].
  - destruct (ClasstimePage.showInput (Popup.page a)); [|exact Ha].
    split; [exact Hl|]. split; [apply Q_edit, Hf|exact Hst].
  - destruct (ClasstimePage.showInput (Popup.page a)); [|exact Ha].
    destruct (Classtime.handleSubmit (Popup.form a)) as [[obj|] f'] eqn:Hsub.
    + apply handleSubmit_saved in Hsub as (-> & -> & Hv).
      pose proof (P_submit _ Hf Hv) as Hc.
      unfold ClasstimePage.handleSave.
      destruct (ClasstimePage.editingIndex (Popup.page a)) as [i|]; simpl.
      * assert (Hl' : Forall P (Js.array_assign (ClasstimePage.classes (Popup.page a)) i
                                  (Popup.form a))).
        { unfold Js.array_assign. destruct (decide _).
          - apply Forall_insert; assumption.
          - apply Forall_app. split; [exact Hl|]. apply Forall_app. split.
            + apply Forall_replicate, P_empty.
            + apply Forall_cons. split; [exact Hc|apply Forall_nil_2]. }
        split; [exact Hl'|]. split; [|apply schema_stored, Hl'].
        apply schema_show; [exact Hl'|exact Q_blank].
      * assert (Hl' : Forall P (ClasstimePage.classes (Popup.page a) ++ [Some (Popup.form a)])).
        { apply Forall_app. split; [exact Hl|].
          apply Forall_cons. split; [exact Hc|apply Forall_nil_2]. }
        split; [exact Hl'|]. split; [|apply schema_stored, Hl'].
        apply schema_show; [exact Hl'|exact Q_blank].
    + unfold Classtime.handleSubmit in Hsub.
      destruct (Classtime.isValid (Popup.form a)); inversion Hsub; subst. exact Ha.
  - destruct (negb _ && bool_decide _); [|exact Ha].
    split; [exact Hl|]. split; [|exact Hst]. apply schema_show; assumption.
  - destruct (negb _ && bool_decide _); [|exact Ha].
    unfold ClasstimePage.handleDelete. simpl. rewrite filter_index_ne_delete.
    pose proof (Forall_delete P _ index Hl) as Hl'.
    split; [exact Hl'|]. split; [|apply schema_stored, Hl'].
    apply schema_show; assumption.
  - destruct (negb _); [|exact Ha].
    split; [exact Hl|]. split; [|exact Hst]. apply schema_show; assumption.
Qed.

Lemma schema_run gs a : popup_inv P Q a -> popup_inv P Q (Popup.run gs a).
Proof.
  revert a. induction gs as [|g gs IH]; intros a Ha; simpl; [exact Ha|].
  apply IH, schema_step, Ha.
Qed.

End PopupSchema.

(** ** Saved classes lie on the half-hour grid *)

Section Grid.

Import Classtime.

Lemma grid_edit e f : form_on_grid f -> form_on_grid (apply_edit e f).
Proof.
  intros [Hs He]. destruct e as [s|d|v|v]; simpl.
  - split; [exact Hs|]. destruct He as [He|(i & j & Hi & Hj & Hij)]; [left; exact He|].
    right. exists i, j. auto.
  - split; [exact Hs|]. destruct He as [He|(i & j & Hi & Hj & Hij)]; [left; exact He|].
    right. exists i, j. auto.
  - destruct (is_option v allTimes) eqn:Hv; [|split; assumption].
    apply is_option_elim in Hv. split; [exact Hv|left; reflexivity].
  - destruct (Js.truthy (startTime f)) eqn:Ht; [|split; assumption].
    destruct (is_option v (validEndTimes (startTime f))) eqn:Hv; [|split; assumption].
    simpl. split; [exact Hs|].
    apply is_option_elim in Hv as [->|Hv]; [left; reflexivity|].
    right. apply truthy_true in Ht.
    destruct Hs as [Hs|Hs]; [contradiction|].
    apply list_elem_of_lookup in Hs as [i Hi].
    rewrite (validEndTimes_drop i _ Hi) in Hv.
    apply list_elem_of_lookup in Hv as [j Hj]. rewrite lookup_drop in Hj.
    exists i, (S i + j)%nat. simpl. split; [exact Hi|]. split; [exact Hj|lia].
Qed.

Lemma grid_mount c : slot_on_grid (Some c) -> form_on_grid c.
Proof.
  intros (i & j & Hi & Hj & Hij). split.
  - right. apply list_elem_of_lookup. exists i. exact Hi.
  - right. exists i, j. auto.
Qed.

Lemma grid_submit f : form_on_grid f -> isValid f = true -> slot_on_grid (Some f).
Proof.
  intros [_ [He|Hg]] Hv; [|exact Hg].
  apply isValid_true in Hv as (_ & _ & _ & Hne). contradiction.
Qed.

Lemma grid_blank : form_on_grid blank.
Proof. split; left; reflexivity. Qed.

End Grid.

(** X4. Starting from a store whose classes have their times on the
    form's list of labels (an empty store does), every class the popup
    ever holds or stores has a start label and a later end label of that
    list: it starts between 8:00 AM and 8:30 PM, ends between 8:30 AM and
    9:00 PM, and lasts a positive multiple of 30 minutes. *)
Theorem saved_meetings_on_half_hour_grid
    (st : gmap string stored) (gs : list Popup.gesture) :
  stored_classes_on_grid st ->
  let a := Popup.run gs (Popup.start st) in
  Forall slot_on_grid (ClasstimePage.classes (Popup.page a))
  /\ stored_classes_on_grid (Popup.store a)
  /\ (forall c, Some c ∈ ClasstimePage.classes (Popup.page a) ->
        exists s e,
          Classtime.timeToMinutes (Classtime.startTime c) = Js.Num s
          /\ Classtime.timeToMinutes (Classtime.endTime c) = Js.Num e
          /\ (8 * 60 <= s <= 20 * 60 + 30)%Z
          /\ (8 * 60 + 30 <= e <= 21 * 60)%Z
          /\ (exists n, (0 < n)%Z /\ e - s = 30 * n)%Z).
Proof.
  intros Hst a.
  destruct (schema_run slot_on_grid form_on_grid I grid_blank grid_mount grid_edit
              grid_submit gs _
              (schema_start slot_on_grid form_on_grid grid_blank st Hst))
    as (Hl & _ & Hst').
  fold a in Hl, Hst'.
  split; [exact Hl|]. split; [exact Hst'|].
  intros c Hc.
  eapply Forall_forall in Hl; [|exact Hc].
  destruct Hl as (i & j & Hi & Hj & Hij).
  apply allTimes_lookup_minutes in Hi as [Hi27 Hi].
  apply allTimes_lookup_minutes in Hj as [Hj27 Hj].
  eexists _, _. split; [exact Hi|]. split; [exact Hj|].
  split; [lia|]. split; [lia|].
  exists (Z.of_nat j - Z.of_nat i)%Z. lia.
Qed.

Lemma saved_evening_class_on_grid :
  let gs := [ Popup.Edit (Classtime.TypeName "MATH 253");
              Popup.Edit (Classtime.ToggleDay Classtime.dM);
              Popup.Edit (Classtime.SelectStart "8:30 PM");
              Popup.Edit (Classtime.SelectEnd "9:00 PM");
              Popup.ClickSubmit ] in
  stored_classes_on_grid ∅
  /\ length (ClasstimePage.classes (Popup.page (Popup.run gs (Popup.start ∅)))) = 1%nat
  /\ Forall slot_on_grid (ClasstimePage.classes (Popup.page (Popup.run gs (Popup.start ∅)))).
Proof.
  intros gs.
  assert (Hempty : stored_classes_on_grid ∅).
  { intros l Hl. rewrite lookup_empty in Hl. discriminate. }
  split; [exact Hempty|]. split; [vm_compute; reflexivity|].
  exact (proj1 (saved_meetings_on_half_hour_grid ∅ gs Hempty)).
Defined.

(** ** The class page over sequences of gestures *)

Section ClassPage.

Implicit Types (a : Popup.app) (p : ClasstimePage.state) (st : gmap string stored).

Lemma load_after_set l st :
  ClasstimePage.classes (ClasstimePage.load (storageSet {[ "classData" := Classes l ]} st)) = l.
Proof. unfold ClasstimePage.load. rewrite storageSet_lookup_same. reflexivity. Qed.

Lemma array_assign_nonempty {A} (l : list (option A)) i v :
  length (Js.array_assign l i v) <> 0%nat.
Proof.
  unfold Js.array_assign. destruct (decide (i < length l)).
  - rewrite length_insert. lia.
  - rewrite !length_app. simpl. lia.
Qed.

(** After a save the form is hidden. *)
Lemma handleSave_hides c p st :
  ClasstimePage.showInput
    (ClasstimePage.sync_showInput (ClasstimePage.handleSave c p st).1) = false.
Proof.
  unfold ClasstimePage.handleSave.
  destruct (ClasstimePage.editingIndex p) as [i|]; simpl;
    apply bool_decide_eq_false.
  - apply array_assign_nonempty.
  - rewrite length_app. simpl. lia.
Qed.

(** Edits of the form leave the page and the store alone. *)
Lemma run_edits es a :
  ClasstimePage.showInput (Popup.page a) = true ->
  Popup.run (edits es) a
  = Popup.mkApp (Popup.page a)
      (fold_left (fun f e => Classtime.apply_edit e f) es (Popup.form a))
      (Popup.store a).
Proof.
  revert a. induction es as [|e es IH]; intros a Hvis.
  - destruct a; reflexivity.
  - change (Popup.run (edits (e :: es)) a)
      with (Popup.run (edits es) (Popup.step (Popup.Edit e) a)).
    assert (Hs : Popup.step (Popup.Edit e) a
                 = Popup.mkApp (Popup.page a) (Classtime.apply_edit e (Popup.form a))
                     (Popup.store a)).
    { unfold Popup.step. rewrite Hvis. reflexivity. }
    rewrite Hs, IH by exact Hvis. reflexivity.
Qed.

Lemma delete_out_of_range {A} (l : list A) i : (length l <= i)%nat -> delete i l = l.
Proof.
  intros Hle. rewrite delete_take_drop, take_ge, drop_ge by lia.
  apply app_nil_r.
Qed.

End ClassPage.

(** X5. Reopening the popup shows the class list it showed when it was
    closed: in every state the popup can reach, the list the class page
    loads from the store is the list the page holds. *)
Theorem class_list_survives_reopening
    (st : gmap string stored) (gs : list Popup.gesture) :
  let a := Popup.run gs (Popup.start st) in
  ClasstimePage.classes (ClasstimePage.load (Popup.store a))
  = ClasstimePage.classes (Popup.page a)
  /\ ClasstimePage.classes (Popup.page (Popup.start (Popup.store a)))
     = ClasstimePage.classes (Popup.page a).
Proof.
  intros a.
  assert (Hinv : forall gs a0,
            ClasstimePage.classes (ClasstimePage.load (Popup.store a0))
            = ClasstimePage.classes (Popup.page a0) ->
            ClasstimePage.classes (ClasstimePage.load (Popup.store (Popup.run gs a0)))
            = ClasstimePage.classes (Popup.page (Popup.run gs a0))).
  { clear. induction gs as [|g gs IH]; intros a0 H0; simpl; [exact H0|].
    apply IH. unfold Popup.step.
    destruct g as [e| |index|index|].
    - destruct (ClasstimePage.showInput _); exact H0.
    - destruct (ClasstimePage.showInput _); [|exact H0].
      destruct (Classtime.handleSubmit (Popup.form a0)) as [[obj|] f']; [|exact H0].
      unfold ClasstimePage.handleSave.
      destruct (ClasstimePage.editingIndex (Popup.page a0)); simpl; apply load_after_set.
    - destruct (negb _ && bool_decide _); exact H0.
    - destruct (negb _ && bool_decide _); [|exact H0].
      unfold ClasstimePage.handleDelete. simpl. apply load_after_set.
    - destruct (negb _); exact H0. }
  assert (H : ClasstimePage.classes (ClasstimePage.load (Popup.store a))
              = ClasstimePage.classes (Popup.page a)).
  { apply Hinv. reflexivity. }
  split; [exact H|exact H].
Qed.

(** X6. The popup never shows an empty screen: in every reachable state
    with no class in the list the entry form is shown, and so whenever
    the form is hidden there is at least one class card. *)
Theorem empty_class_list_shows_form
    (st : gmap string stored) (gs : list Popup.gesture) :
  let p := Popup.page (Popup.run gs (Popup.start st)) in
  (ClasstimePage.classes p = [] -> ClasstimePage.showInput p = true)
  /\ (ClasstimePage.showInput p = false -> ClasstimePage.classes p <> []).
Proof.
  intros p.
  assert (Hinv : forall gs a0,
            (ClasstimePage.classes (Popup.page a0) = [] ->
             ClasstimePage.showInput (Popup.page a0) = true) ->
            ClasstimePage.classes (Popup.page (Popup.run gs a0)) = [] ->
            ClasstimePage.showInput (Popup.page (Popup.run gs a0)) = true).
  { clear. induction gs as [|g gs IH]; intros a0 H0; simpl; [exact H0|].
    apply IH. unfold Popup.step.
    destruct g as [e| |index|index|].
    - destruct (ClasstimePage.showInput (Popup.page a0)) eqn:Hvis;
        simpl; intros Hn; rewrite Hvis; exact (H0 Hn).
    - destruct (ClasstimePage.showInput (Popup.page a0)) eqn:Hvis;
        [|simpl; intros Hn; rewrite Hvis; exact (H0 Hn)].
      destruct (Classtime.handleSubmit (Popup.form a0)) as [[obj|] f'];
        [|simpl; intros _; exact Hvis].
      destruct (ClasstimePage.handleSave obj (Popup.page a0) (Popup.store a0)) as [p' st'].
      simpl. intros Hnil. apply bool_decide_eq_true. rewrite Hnil. reflexivity.
    - destruct (negb _ && bool_decide _); [|exact H0]. reflexivity.
    - destruct (negb _ && bool_decide _); [|exact H0].
      simpl. intros Hnil. apply bool_decide_eq_true. rewrite Hnil. reflexivity.
    - destruct (negb _); [|exact H0]. reflexivity. }
  assert (H : ClasstimePage.classes p = [] -> ClasstimePage.showInput p = true).
  { apply Hinv. unfold Popup.start, ClasstimePage.load. simpl.
    destruct (st !! "classData") as [[l| | | | |]|]; simpl; try reflexivity.
    intros ->. reflexivity. }
  split; [exact H|].
  intros Hhid Hnil. rewrite (H Hnil) in Hhid. discriminate.
Qed.

(** X7. A second click on the submit button changes nothing: a valid
    form is saved by the first click, which hides the form, and an
    invalid form is saved by neither click. *)
Theorem second_submit_click_is_idle (a : Popup.app) :
  Popup.step Popup.ClickSubmit (Popup.step Popup.ClickSubmit a)
  = Popup.step Popup.ClickSubmit a
  /\ (forall classObj f',
        ClasstimePage.showInput (Popup.page a) = true ->
        Classtime.handleSubmit (Popup.form a) = (Some classObj, f') ->
        ClasstimePage.showInput (Popup.page (Popup.step Popup.ClickSubmit a)) = false).
Proof.
  assert (Hsaved : forall classObj f',
            ClasstimePage.showInput (Popup.page a) = true ->
            Classtime.handleSubmit (Popup.form a) = (Some classObj, f') ->
            ClasstimePage.showInput (Popup.page (Popup.step Popup.ClickSubmit a)) = false).
  { intros obj f' Hvis Hsub. unfold Popup.step. rewrite Hvis, Hsub.
    pose proof (handleSave_hides obj (Popup.page a) (Popup.store a)) as Hhid.
    destruct (ClasstimePage.handleSave obj (Popup.page a) (Popup.store a)) as [p' st'].
    exact Hhid. }
  split; [|exact Hsaved].
  destruct (ClasstimePage.showInput (Popup.page a)) eqn:Hvis.
  - destruct (Classtime.handleSubmit (Popup.form a)) as [[obj|] f'] eqn:Hsub.
    + specialize (Hsaved obj f' eq_refl eq_refl).
      generalize dependent (Popup.step Popup.ClickSubmit a). intros a1 Hhid.
      unfold Popup.step. rewrite Hhid. reflexivity.
    + assert (Hstep : Popup.step Popup.ClickSubmit a = a).
      { unfold Popup.step. rewrite Hvis, Hsub.
        unfold Classtime.handleSubmit in Hsub.
        destruct (Classtime.isValid (Popup.form a)); inversion Hsub; subst.
        destruct a; reflexivity. }
      rewrite !Hstep. reflexivity.
  - assert (Hstep : Popup.step Popup.ClickSubmit a = a).
    { unfold Popup.step. rewrite Hvis. reflexivity. }
    rewrite !Hstep. reflexivity.
Qed.

(** X8. Editing an entry changes at most that entry: from the card
    list, pressing Edit on entry [i], doing anything in the form and
    pressing the submit button leaves the list with the same length and
    every other entry in place; entry [i] is then either as before or
    the valid form that was submitted.  Saving without touching the form
    leaves the list exactly as it was. *)
Theorem editing_changes_one_entry
    (a : Popup.app) (i : nat) (es : list Classtime.edit) :
  ClasstimePage.showInput (Popup.page a) = false ->
  (i < length (ClasstimePage.classes (Popup.page a)))%nat ->
  let before := ClasstimePage.classes (Popup.page a) in
  let after :=
    ClasstimePage.classes
      (Popup.page (Popup.run (Popup.ClickEdit i :: edits es ++ [Popup.ClickSubmit]) a)) in
  length after = length before
  /\ (forall j, j <> i -> after !! j = before !! j)
  /\ (after = before
      \/ exists f, Classtime.isValid f = true /\ after = <[ i := Some f ]> before)
  /\ (es = [] -> after = before).
Proof.
  intros Hhid Hlt before after.
  set (p1 := ClasstimePage.handleEdit i (Popup.page a)).
  set (f1 := Classtime.mount (ClasstimePage.initialData p1)).
  assert (Hedit : Popup.step (Popup.ClickEdit i) a = Popup.mkApp p1 f1 (Popup.store a)).
  { unfold Popup.step. rewrite Hhid. simpl negb.
    rewrite bool_decide_eq_true_2 by exact Hlt. reflexivity. }
  set (f2 := fold_left (fun f e => Classtime.apply_edit e f) es f1).
  assert (Hrun : Popup.run (Popup.ClickEdit i :: edits es ++ [Popup.ClickSubmit]) a
                 = Popup.step Popup.ClickSubmit (Popup.mkApp p1 f2 (Popup.store a))).
  { change (Popup.run (Popup.ClickEdit i :: edits es ++ [Popup.ClickSubmit]) a)
      with (Popup.run (edits es ++ [Popup.ClickSubmit]) (Popup.step (Popup.ClickEdit i) a)).
    unfold Popup.run at 1. rewrite fold_left_app. fold (Popup.run (edits es)).
    rewrite Hedit, run_edits by reflexivity. reflexivity. }
  assert (Hcases : after = before
                   \/ (Classtime.isValid f2 = true /\ after = <[ i := Some f2 ]> before)).
  { unfold after. rewrite Hrun. unfold Popup.step.
    cbn [Popup.page Popup.form Popup.store].
    change (ClasstimePage.showInput p1) with true. cbv iota.
    unfold Classtime.handleSubmit.
    destruct (Classtime.isValid f2) eqn:Hv; [|left; reflexivity].
    right. split; [reflexivity|]. simpl.
    apply array_assign_in_range. exact Hlt. }
  split.
  { destruct Hcases as [->|[_ ->]]; [reflexivity|apply length_insert]. }
  split.
  { intros j Hj. destruct Hcases as [->|[_ ->]]; [reflexivity|].
    apply list_lookup_insert_ne. congruence. }
  split.
  { destruct Hcases as [H|[Hv H]]; [left; exact H|right; exists f2; split; assumption]. }
  intros ->. destruct Hcases as [H|[Hv H]]; [exact H|].
  rewrite H.
  assert (Hf2 : f2 = Classtime.mount (mjoin (before !! i))) by reflexivity.
  rewrite Hf2 in Hv |- *. clear Hf2.
  destruct (before !! i) as [[c|]|] eqn:Hi; simpl in Hv |- *.
  - apply list_insert_id. exact Hi.
  - discriminate.
  - apply lookup_ge_None in Hi. unfold before in Hi. lia.
Qed.

Lemma editing_first_of_two_classes :
  let c1 := Classtime.mkClass "CPEN 221" (Classtime.toggle Classtime.dTu Classtime.no_days)
              "9:00 AM" "10:30 AM" in
  let c2 := Classtime.mkClass "MATH 253" (Classtime.toggle Classtime.dM Classtime.no_days)
              "1:00 PM" "2:00 PM" in
  let a := Popup.start {[ "classData" := Classes [Some c1; Some c2] ]} in
  let es := [Classtime.SelectStart "9:30 AM"; Classtime.SelectEnd "11:00 AM"] in
  ClasstimePage.classes
    (Popup.page (Popup.run (Popup.ClickEdit 0 :: edits es ++ [Popup.ClickSubmit]) a)) !! 1%nat
  = Some (Some c2).
Proof.
  intros c1 c2 a es.
  destruct (editing_changes_one_entry a 0 es eq_refl ltac:(vm_compute; lia)) as (_ & H & _).
  rewrite (H 1%nat) by discriminate. reflexivity.
Defined.

(** X9. Deleting the entry that was just appended gives back the list
    as it was, in the page and under [classData]; a delete whose index
    is past the end of the list removes nothing. *)
Theorem delete_undoes_append
    (classObj : Classtime.ClassObj) (s : ClasstimePage.state)
    (st : gmap string stored) :
  ClasstimePage.editingIndex s = None ->
  (let '(s1, st1) := ClasstimePage.handleSave classObj s st in
   let '(s2, st2) := ClasstimePage.handleDelete (length (ClasstimePage.classes s)) s1 st1 in
   ClasstimePage.classes s2 = ClasstimePage.classes s
   /\ st2 !! "classData" = Some (Classes (ClasstimePage.classes s)))
  /\ (forall index, (length (ClasstimePage.classes s) <= index)%nat ->
        ClasstimePage.classes (ClasstimePage.handleDelete index s st).1
        = ClasstimePage.classes s).
Proof.
  intros Hnone. split.
  - unfold ClasstimePage.handleSave. rewrite Hnone.
    unfold ClasstimePage.handleDelete. simpl.
    rewrite filter_index_ne_delete.
    assert (Hdel : delete (length (ClasstimePage.classes s))
                     (ClasstimePage.classes s ++ [Some classObj])
                   = ClasstimePage.classes s).
    { rewrite delete_middle. apply app_nil_r. }
    rewrite Hdel. split; [reflexivity|apply storageSet_lookup_same].
  - intros index Hle. unfold ClasstimePage.handleDelete. simpl.
    rewrite filter_index_ne_delete. apply delete_out_of_range, Hle.
Qed.

Lemma delete_undoes_append_to_one_class :
  let c := Classtime.mkClass "ELEC 201" (Classtime.toggle Classtime.dW Classtime.no_days)
             "3:00 PM" "4:00 PM" in
  let s := ClasstimePage.mkState [Some c] false None in
  ClasstimePage.classes
    (ClasstimePage.handleDelete 5 s ∅).1 = [Some c].
Proof.
  intros c s.
  apply (proj2 (delete_undoes_append c s ∅ eq_refl) 5%nat). simpl. lia.
Defined.

(** ** The class card *)

(** X10. The day line of a class card determines the ticked days: two
    day sets with the same line are the same set, the line is empty
    exactly when no day is ticked, and the card of a class that passed
    the form's validity test names at least one day. *)
Theorem selectedDays_determines_days :
  (forall d1 d2 : Classtime.Days,
     ClasstimeCard.selectedDays d1 = ClasstimeCard.selectedDays d2 -> d1 = d2)
  /\ (forall d : Classtime.Days,
        ClasstimeCard.selectedDays d = "" <-> d = Classtime.no_days)
  /\ (forall f : Classtime.ClassObj,
        Classtime.isValid f = true ->
        ClasstimeCard.selectedDays (Classtime.days f) <> "").
Proof.
  assert (Hempty : forall d : Classtime.Days,
            ClasstimeCard.selectedDays d = "" <-> d = Classtime.no_days).
  { intros [[] [] [] [] []]; vm_compute; split; intros H;
      first [reflexivity | discriminate H]. }
  split; [|split; [exact Hempty|]].
  - intros [[] [] [] [] []] [[] [] [] [] []]; vm_compute; intros H;
      first [reflexivity | discriminate H].
  - intros f Hv Hnil. apply Hempty in Hnil.
    apply isValid_true in Hv as (_ & Hday & _).
    rewrite Hnil in Hday. discriminate.
Qed.

(** ** Token entry and the root component *)

Section TokenEntry.

Implicit Types (st : gmap string stored) (s : GetAPI.state).

Lemma storageSet_pair k1 k2 v1 v2 st :
  storageSet {[ k1 := v1; k2 := v2 ]} st = <[ k1 := v1 ]> (<[ k2 := v2 ]> st).
Proof.
  unfold storageSet.
  rewrite <- insert_union_l. f_equal. symmetry. apply insert_union_singleton_l.
Qed.

Variable courses_api : string -> option (list string).
Variable finalexam_api : list string -> option (list Event).

(** What the [try] block leaves in the store. *)
Lemma fetch_all_store s st :
  let '(s1, st1, caught) := GetAPI.fetch_all courses_api finalexam_api s st in
  st1 !! "courses"
    = match courses_api (Js.trim (GetAPI.APIKEY s)) with
      | Some fetchedCourses => Some (Courses fetchedCourses)
      | None => st !! "courses"
      end
  /\ st1 !! "finals"
    = match courses_api (Js.trim (GetAPI.APIKEY s)), finalexam_api (GetAPI.classes s) with
      | Some _, Some fetchedFinals => Some (Events fetchedFinals)
      | _, _ => st !! "finals"
      end
  /\ (forall k, k <> "courses" -> k <> "finals" -> st1 !! k = st !! k)
  /\ (caught = false <->
      is_Some (courses_api (Js.trim (GetAPI.APIKEY s)))
      /\ is_Some (finalexam_api (GetAPI.classes s))).
Proof.
  unfold GetAPI.fetch_all.
  destruct (courses_api (Js.trim (GetAPI.APIKEY s))) as [cs|].
  - destruct (finalexam_api (GetAPI.classes s)) as [fs|].
    + split; [rewrite storageSet_lookup_other by discriminate;
               apply storageSet_lookup_same|].
      split; [apply storageSet_lookup_same|].
      split.
      * intros k Hc Hf. rewrite !storageSet_lookup_other by assumption. reflexivity.
      * split; [intros _; split; eexists; reflexivity|reflexivity].
    + split; [apply storageSet_lookup_same|].
      split; [apply storageSet_lookup_other; discriminate|].
      split.
      * intros k Hc Hf. apply storageSet_lookup_other, Hc.
      * split; [discriminate|intros [_ [x Hx]]; discriminate].
  - split; [reflexivity|]. split; [reflexivity|].
    split; [reflexivity|].
    split; [discriminate|intros [[x Hx] _]; discriminate].
Qed.

Lemma handleEnter_blank s st :
  Js.trim (GetAPI.APIKEY s) = "" ->
  GetAPI.handleEnter courses_api finalexam_api s st
  = (GetAPI.mkState (GetAPI.APIKEY s) "Please paste your API token before continuing."
       (GetAPI.classes s), st, false).
Proof. intros Hkey. unfold GetAPI.handleEnter. rewrite Hkey. reflexivity. Qed.

Lemma handleEnter_entered s st :
  Js.trim (GetAPI.APIKEY s) <> "" ->
  (GetAPI.handleEnter courses_api finalexam_api s st).2 = true
  /\ (GetAPI.handleEnter courses_api finalexam_api s st).1.2 !! "enter" = Some (Flag true)
  /\ (GetAPI.handleEnter courses_api finalexam_api s st).1.2 !! "accepted"
     = st !! "accepted".
Proof.
  intros Hkey. apply truthy_true in Hkey.
  unfold GetAPI.handleEnter. rewrite Hkey. simpl negb. cbv iota.
  pose proof (fetch_all_store s st) as Hfetch.
  destruct (GetAPI.fetch_all courses_api finalexam_api s st) as [[s1 st1] caught].
  destruct Hfetch as (_ & _ & Hother & _). simpl.
  rewrite storageSet_pair.
  split; [reflexivity|]. split; [apply lookup_insert_eq|].
  rewrite !lookup_insert_ne by discriminate. apply Hother; discriminate.
Qed.

End TokenEntry.

(** X11. [handleEnter] with a blank key (empty after trimming) stores
    nothing and does not let the user in.  With any other key it always
    lets the user in and stores the flag and the trimmed key, whether or
    not the two requests succeed, and ends with the error message
    cleared; the courses are stored when the first request succeeds, the
    finals when both do, and the final-exam request is made for the
    course list the component held before the click, not for the courses
    just fetched.  No other key of the store is touched. *)
Theorem handleEnter_outcome
    (courses_api : string -> option (list string))
    (finalexam_api : list string -> option (list Event))
    (s : GetAPI.state) (st : gmap string stored) :
  let key := Js.trim (GetAPI.APIKEY s) in
  let '(s', st', entered) := GetAPI.handleEnter courses_api finalexam_api s st in
  (key = "" ->
     st' = st /\ entered = false
     /\ GetAPI.errorMessage s' = "Please paste your API token before continuing.")
  /\ (key <> "" ->
     entered = true
     /\ st' !! "enter" = Some (Flag true)
     /\ st' !! "token" = Some (Token key)
     /\ GetAPI.errorMessage s' = ""
     /\ st' !! "courses"
        = match courses_api key with
          | Some fetchedCourses => Some (Courses fetchedCourses)
          | None => st !! "courses"
          end
     /\ st' !! "finals"
        = match courses_api key, finalexam_api (GetAPI.classes s) with
          | Some _, Some fetchedFinals => Some (Events fetchedFinals)
          | _, _ => st !! "finals"
          end)
  /\ (forall k, k <> "enter" -> k <> "token" -> k <> "courses" -> k <> "finals" ->
        st' !! k = st !! k).
Proof.
  intros key. unfold GetAPI.handleEnter. fold key.
  destruct (Js.truthy key) eqn:Hkey; simpl negb; cbv iota.
  - apply truthy_true in Hkey.
    pose proof (fetch_all_store courses_api finalexam_api s st) as Hfetch.
    destruct (GetAPI.fetch_all courses_api finalexam_api s st) as [[s1 st1] caught].
    fold key in Hfetch. destruct Hfetch as (Hc & Hf & Hother & _).
    rewrite storageSet_pair.
    split; [intros E; contradiction|].
    split.
    + intros _. split; [reflexivity|].
      split; [apply lookup_insert_eq|].
      split; [rewrite lookup_insert_ne by discriminate; apply lookup_insert_eq|].
      split; [reflexivity|].
      split; rewrite !lookup_insert_ne by discriminate; assumption.
    + intros k He Ht Hcs Hfs.
      rewrite !lookup_insert_ne by congruence. apply Hother; assumption.
  - assert (Hblank : key = "").
    { destruct (String.eqb_spec key ""); [assumption|].
      apply truthy_true in n. congruence. }
    split; [intros _; repeat split|].
    split; [intros Hne; contradiction|reflexivity].
Qed.

Lemma handleEnter_when_the_server_is_down :
  let down_courses : string -> option (list string) := fun _ => None in
  let down_finals : list string -> option (list Event) := fun _ => None in
  let s := GetAPI.mkState " 7~abc " "" [] in
  let '(s', st', entered) := GetAPI.handleEnter down_courses down_finals s ∅ in
  entered = true
  /\ st' !! "token" = Some (Token "7~abc")
  /\ st' !! "courses" = None.
Proof.
  intros down_courses down_finals s.
  pose proof (handleEnter_outcome down_courses down_finals s ∅) as H.
  destruct (GetAPI.handleEnter down_courses down_finals s ∅) as [[s' st'] entered].
  destruct H as (_ & H & _).
  destruct H as (He & _ & Ht & _ & Hc & _); [vm_compute; discriminate|].
  split; [exact He|]. split; [exact Ht|exact Hc].
Defined.

(** X12. The tabs are shown exactly when the store holds a truthy
    [accepted] and a truthy [enter]; an empty store shows the terms
    popup.  Once the terms are accepted, entering any non-blank key
    leads to the tabs, even when both requests fail, and a blank key
    leaves the token screen in place. *)
Theorem tabs_are_shown_after_token_entry
    (courses_api : string -> option (list string))
    (finalexam_api : list string -> option (list Event)) :
  Body.mounted ∅ = Body.ShowPopup
  /\ (forall st, Body.mounted st = Body.ShowMain
               <-> Body.truthy (st !! "accepted") = true
                   /\ Body.truthy (st !! "enter") = true)
  /\ (forall s st,
        Body.truthy (st !! "accepted") = true ->
        Js.trim (GetAPI.APIKEY s) <> "" ->
        Body.mounted (GetAPI.handleEnter courses_api finalexam_api s st).1.2 = Body.ShowMain
        /\ (GetAPI.handleEnter courses_api finalexam_api s st).2 = true)
  /\ (forall s st,
        Js.trim (GetAPI.APIKEY s) = "" ->
        Body.mounted (GetAPI.handleEnter courses_api finalexam_api s st).1.2
        = Body.mounted st
        /\ (GetAPI.handleEnter courses_api finalexam_api s st).2 = false).
Proof.
  split; [reflexivity|].
  split.
  { intros st. unfold Body.mounted, Body.render.
    destruct (Body.truthy (st !! "accepted")), (Body.truthy (st !! "enter"));
      simpl; split; try discriminate; try tauto.
    - intros [_ H]; discriminate.
    - intros [H _]; discriminate.
    - intros [H _]; discriminate. }
  split.
  - intros s st Hacc Hkey.
    destruct (handleEnter_entered courses_api finalexam_api s st Hkey) as (He & Hen & Ha).
    split; [|exact He].
    unfold Body.mounted. rewrite Hen, Ha, Hacc. reflexivity.
  - intros s st Hkey.
    rewrite (handleEnter_blank courses_api finalexam_api s st Hkey).
    split; reflexivity.
Qed.

Lemma tabs_after_entry_with_the_server_down :
  let down_courses : string -> option (list string) := fun _ => None in
  let down_finals : list string -> option (list Event) := fun _ => None in
  let st : gmap string stored := {[ "accepted" := Flag true ]} in
  Body.mounted st = Body.ShowGetAPI
  /\ Body.mounted
       (GetAPI.handleEnter down_courses down_finals (GetAPI.mkState "7~abc" "" []) st).1.2
     = Body.ShowMain.
Proof.
  intros down_courses down_finals st.
  split; [reflexivity|].
  apply (proj1 (proj2 (proj2 (tabs_are_shown_after_token_entry down_courses down_finals)))).
  - reflexivity.
  - vm_compute. discriminate.
Defined.

(** ** Pages kept open over several refreshes *)

Section Sessions.

Context {S R : Type}.

Variable load : gmap string stored -> S.
Variable reparse : option R -> S -> gmap string stored -> S * gmap string stored.
Variable shown : S -> R.

(** What the three fetch pages have in common: an answer is stored and
    shown, a failed request leaves a freshly loaded page as it is. *)
Hypothesis reparse_answer : forall r s st,
  let '(s', st') := reparse (Some r) s st in s' = load st' /\ shown s' = r.
Hypothesis reparse_failure : forall st, reparse None (load st) st = (load st, st).

Lemma session_shows_last_answer rs st :
  let '(s', st') := session reparse rs (load st, st) in
  s' = load st'
  /\ shown s' = default (shown (load st)) (last_success rs).
Proof.
  revert st. induction rs as [|r rs IH]; intros st.
  - simpl. split; reflexivity.
  - change (session reparse (r :: rs) (load st, st))
      with (session reparse rs (reparse r (load st) st)).
    destruct r as [r|].
    + pose proof (reparse_answer r (load st) st) as Hr.
      destruct (reparse (Some r) (load st) st) as [s1 st1].
      destruct Hr as [-> Hshown].
      specialize (IH st1).
      destruct (session reparse rs (load st1, st1)) as [s' st'].
      destruct IH as [Hload Hs]. split; [exact Hload|].
      rewrite Hs, Hshown. unfold last_success.
      change (omap id (Some r :: rs)) with (r :: omap id rs).
      rewrite last_cons. destruct (last (omap id rs)); reflexivity.
    + rewrite reparse_failure. apply IH.
Qed.

End Sessions.

(** X13. A fetch page kept open over any number of refreshes ends up
    showing the answer of the last request that succeeded, or, when none
    did, the list it loaded at the start; and what it shows is what a
    fresh mount would load from the store, so nothing is shown that is
    not stored.  This holds for the midterm, final-exam and assignment
    pages. *)
Theorem refresh_session_shows_last_answer (st : gmap string stored) :
  (forall rs,
     let '(s', st') := session MidtermPage.reparse rs (MidtermPage.load st, st) in
     s' = MidtermPage.load st'
     /\ MidtermPage.midterms s'
        = default (MidtermPage.midterms (MidtermPage.load st)) (last_success rs))
  /\ (forall rs,
     let '(s', st') := session FinalExamPage.reparse rs (FinalExamPage.load st, st) in
     s' = FinalExamPage.load st'
     /\ FinalExamPage.finals s'
        = default (FinalExamPage.finals (FinalExamPage.load st)) (last_success rs))
  /\ (forall rs,
     let '(s', st') := session AssignmentPage.reparse rs (AssignmentPage.load st, st) in
     s' = AssignmentPage.load st'
     /\ AssignmentPage.assignments s'
        = default (AssignmentPage.assignments (AssignmentPage.load st)) (last_success rs)).
Proof.
  split; [|split]; intros rs.
  - apply (session_shows_last_answer MidtermPage.load MidtermPage.reparse MidtermPage.midterms).
    + intros r s st0. simpl. unfold MidtermPage.load.
      rewrite storageSet_lookup_same. split; reflexivity.
    + intros st0. unfold MidtermPage.reparse, MidtermPage.load.
      destruct (st0 !! "midterms") as [[]|]; reflexivity.
  - apply (session_shows_last_answer FinalExamPage.load FinalExamPage.reparse FinalExamPage.finals).
    + intros r s st0. simpl. unfold FinalExamPage.load.
      rewrite storageSet_lookup_same. split; reflexivity.
    + intros st0. unfold FinalExamPage.reparse, FinalExamPage.load.
      destruct (st0 !! "finals") as [[]|]; reflexivity.
  - apply (session_shows_last_answer AssignmentPage.load AssignmentPage.reparse
             AssignmentPage.assignments).
    + intros r s st0. simpl. unfold AssignmentPage.load.
      rewrite storageSet_lookup_same. split; reflexivity.
    + intros st0. unfold AssignmentPage.reparse, AssignmentPage.load.
      destruct (st0 !! "assignments") as [[]|]; reflexivity.
Qed.

Lemma midterm_session_with_a_failed_last_request :
  let later := [mkEvent "MATH 253" "midterm" "2025/10/22" "12:00:00" "13:00:00" None] in
  let '(s', st') :=
    session MidtermPage.reparse [Some info; Some later; None] (MidtermPage.load ∅, ∅) in
  MidtermPage.midterms s' = later /\ stored_midterms st' = later.
Proof.
  intros later.
  pose proof (proj1 (refresh_session_shows_last_answer ∅) [Some info; Some later; None]) as H.
  destruct (session MidtermPage.reparse [Some info; Some later; None] (MidtermPage.load ∅, ∅))
    as [s' st'].
  destruct H as [Hload Hshown].
  split; [exact Hshown|].
  rewrite Hload in Hshown. unfold MidtermPage.load in Hshown. unfold stored_midterms.
  destruct (st' !! "midterms") as [[]|]; exact Hshown.
Defined.

(** ** The tabs *)

(** X14. Every tab button opens a page and nothing else does: a label
    selects a page exactly when it is one of the four tab labels of
    [Main], different tabs open different pages, and the popup opens on
    the class page. *)
Theorem every_tab_opens_its_page :
  (forall tab, is_Some (ComponentSelect.select tab) <-> tab ∈ Main.COMPONENT_TABS)
  /\ (forall t1 t2, t1 ∈ Main.COMPONENT_TABS ->
        ComponentSelect.select t1 = ComponentSelect.select t2 -> t1 = t2)
  /\ (Main.initial_tab ≫= ComponentSelect.select) = Some ComponentSelect.ShowClasstimePage.
Proof.
  assert (Hsel : forall tab,
            is_Some (ComponentSelect.select tab) <-> tab ∈ Main.COMPONENT_TABS).
  { intros tab. unfold ComponentSelect.select, Main.COMPONENT_TABS.
    rewrite !elem_of_cons, elem_of_nil.
    destruct (String.eqb_spec tab "Classes") as [->|H1];
      [split; [tauto|intros _; eexists; reflexivity]|].
    destruct (String.eqb_spec tab "Finals") as [->|H2];
      [split; [tauto|intros _; eexists; reflexivity]|].
    destruct (String.eqb_spec tab "Assignments") as [->|H3];
      [split; [tauto|intros _; eexists; reflexivity]|].
    destruct (String.eqb_spec tab "Midterms") as [->|H4];
      [split; [tauto|intros _; eexists; reflexivity]|].
    split; [intros [x Hx]; discriminate|tauto]. }
  split; [exact Hsel|]. split; [|reflexivity].
  intros t1 t2 H1 Heq.
  assert (H2 : t2 ∈ Main.COMPONENT_TABS).
  { apply Hsel. rewrite <- Heq. apply Hsel, H1. }
  unfold Main.COMPONENT_TABS in H1, H2.
  rewrite !elem_of_cons, elem_of_nil in H1, H2.
  destruct H1 as [->|[->|[->|[->|[]]]]], H2 as [->|[->|[->|[->|[]]]]];
    first [reflexivity | discriminate Heq].
Qed.
